(** * MinDE local velocity analysis: the batch script

    A shallow embedding of [min_analysis_scripts/batch_local_velocity.py].
    The script is a straight-line Python module: it reads its settings,
    derives the velocity unit and scaling factor, creates the result CSV with
    its header and then, for every tif stack found under the input path, runs
    the local velocity analysis, saves the figure and appends one CSV row per
    velocity record.

    Numbers are modelled as exact rationals ([float]): the float arithmetic of
    the script is read with its real-number meaning and rounding is not
    modelled.  Python exceptions are values of [exn]; statements are state
    transformers over [pystate] that stop at the first exception and keep
    the effects made so far. *)

From Stdlib Require Import List ZArith QArith String Bool Lia Floats.
Import ListNotations.

Set Implicit Arguments.

(** ** Python values and exceptions *)

Inductive exn : Type :=
| NameError (name : string)
| ZeroDivisionError
| IndexError
| ConfigurationError
| FileNotFoundError
| FileExistsError
| OtherError (msg : string).

Inductive result (A : Type) : Type :=
| Ok (a : A)
| Raise (e : exn).

Arguments Ok {A} a.
Arguments Raise {A} e.

(** Python's true division [a / b] on floats: a zero divisor of either sign
    raises, everything else is the machine's division (an overflow gives an
    infinity, not an exception). *)
Definition pydiv (a b : float) : result float :=
  if (b =? 0)%float then Raise ZeroDivisionError else Ok (a / b)%float.

(** ** Data *)

(** A frame is a grid of intensities (rows of pixels); a stack is the
    sequence of frames [io.imread] decodes from one tif file. *)
Definition frame : Type := list (list Q).
Definition ImageStack : Type := list frame.

(** One tif file found by [inpath.glob]: [stack.stem] and the decoded data. *)
Record stack : Type := mkStack {
  stem : string;
  imread : ImageStack
}.

(** The settings block at the top of the script (lines 32-44). *)
Record config : Type := mkConfig {
  nmperpix : option float;
  frpermin : option float;
  frames_to_analyse : Z;
  halfspan : option Z;
  sampling_width : float;
  edge : Z;
  bins_wheel : Z;
  binwidth_sum : float;
  kernel_size_general : Z;
  kernel_size_flow : Z
}.

(** The values the script ships with. *)
Definition script_config : config :=
  {| nmperpix := None; frpermin := None; frames_to_analyse := 10;
     halfspan := None; sampling_width := 0.25; edge := 30;
     bins_wheel := 50; binwidth_sum := 2.5;
     kernel_size_general := 20; kernel_size_flow := 50 |}.

(** The argument list of the call to [local_velocity_analysis]
    (lines 110-122), positional arguments first. *)
Record call_args : Type := mkArgs {
  arg_stack : ImageStack;
  arg_frames_to_analyse : Z;
  arg_halfspan : Z;
  arg_sampling_width : float;
  arg_edge : Z;
  arg_bins_wheel : Z;
  arg_binwidth_sum : float;
  arg_kernel_size_general : Z;
  arg_kernel_size_flow : Z;
  look_ahead : Z;
  demo : bool
}.

(** Figures and axes are handles the script only passes on. *)
Definition handle : Type := nat.

(** The 14-tuple [local_velocity_analysis] returns (lines 95-109). *)
Record analysis_out : Type := mkOut {
  velocities : list float;
  forward_wavevector_x : list float;
  forward_wavevector_y : list float;
  wheels : list (list float);
  crests_x : list float;
  crests_y : list float;
  framenr : list float;
  max_x1 : list float;
  max_y1 : list float;
  max_x2 : list float;
  max_y2 : list float;
  fig : handle;
  ax_wheel : handle;
  ax_sum : handle
}.

(** A CSV row is a list of cells, a string or a number. *)
Inductive cell : Type :=
| CStr (s : string)
| CNum (q : float).

Definition row : Type := list cell.

(** What the script does that can be observed, in program order.  Events of
    the stack loop carry the position of the stack in the glob order. *)
Inductive event : Type :=
| EvOpenWrite
| EvWriteHeader (r : row)
| EvLoad (i : nat) (stackname : string)
| EvAutoHalfspan (i : nat) (h : Z)
| EvAnalysis (i : nat) (args : call_args)
| EvSaveFig (i : nat) (savename : string) (f : handle)
| EvOpenAppend (i : nat)
| EvWriteRow (i : nat) (n : nat) (r : row).

Section Script.

(** Everything outside the script's inputs that a call into
    [min_analysis_tools] could read or change (clock, generator state,
    caches).  The script itself never looks at it. *)
Variable World : Type.

(** The functions the script imports, and Python's number formatting. *)
Record externals : Type := mkExt {
  get_auto_halfspan : ImageStack -> Z -> World -> result Z * World;
  local_velocity_analysis : call_args -> World -> result analysis_out * World;
  str_of_number : float -> string
}.

(** The interpreter state: the world, the module global [halfspan_tmp]
    ([None] while the name is unbound), the contents of
    [local_velocity_results.csv] ([None] while the file does not exist) and
    the events so far. *)
Record pystate : Type := mkState {
  world : World;
  halfspan_tmp : option Z;
  csv_file : option (list row);
  log : list event
}.

Definition M (A : Type) : Type := pystate -> result A * pystate.

Definition ret {A} (a : A) : M A := fun st => (Ok a, st).

Definition raise {A} (e : exn) : M A := fun st => (Raise e, st).

Definition bind {A B} (m : M A) (k : A -> M B) : M B :=
  fun st =>
    match m st with
    | (Ok a, st') => k a st'
    | (Raise e, st') => (Raise e, st')
    end.

Definition lift {A} (r : result A) : M A := fun st => (r, st).

Notation "x <- m ;; k" := (bind m (fun x => k))
  (at level 61, m at next level, right associativity).
Notation "m ;; k" := (bind m (fun _ => k))
  (at level 61, right associativity).

Definition emit (e : event) : M unit :=
  fun st => (Ok tt, {| world := world st; halfspan_tmp := halfspan_tmp st;
                       csv_file := csv_file st; log := log st ++ [e] |}).

Definition contents (f : option (list row)) : list row :=
  match f with Some rows => rows | None => [] end.

Definition set_csv (f : option (list row)) : M unit :=
  fun st => (Ok tt, {| world := world st; halfspan_tmp := halfspan_tmp st;
                       csv_file := f; log := log st |}).

(** [open(csv_file, "w")]: the file is created, or emptied when it exists. *)
Definition open_write : M unit :=
  set_csv (Some []) ;; emit EvOpenWrite.

(** [open(csv_file, "a")]: the file is created when absent, kept otherwise. *)
Definition open_append (i : nat) : M unit :=
  fun st => (set_csv (Some (contents (csv_file st))) ;; emit (EvOpenAppend i)) st.

(** [writer.writerow(r)]: one more line at the end of the file. *)
Definition writerow (e : event) (r : row) : M unit :=
  fun st => (set_csv (Some (contents (csv_file st) ++ [r])) ;; emit e) st.

(** [seq[n]] for [n >= 0]. *)
Definition getitem (l : list float) (n : nat) : M float :=
  match nth_error l n with
  | Some x => ret x
  | None => raise IndexError
  end.

(** A call into [min_analysis_tools]: the world goes in and comes out. *)
Definition call {A} (f : World -> result A * World) : M A :=
  fun st =>
    let (r, w) := f (world st) in
    (r, {| world := w; halfspan_tmp := halfspan_tmp st;
           csv_file := csv_file st; log := log st |}).

Definition assign_halfspan_tmp (h : Z) : M unit :=
  fun st => (Ok tt, {| world := world st; halfspan_tmp := Some h;
                       csv_file := csv_file st; log := log st |}).

(** Reading the global [halfspan_tmp]. *)
Definition read_halfspan_tmp : M Z :=
  fun st =>
    match halfspan_tmp st with
    | Some h => (Ok h, st)
    | None => (Raise (NameError "halfspan_tmp"), st)
    end.

(** A [for] loop over a list; the body also gets the position of the item. *)
Fixpoint for_each {A} (body : nat -> A -> M unit) (i : nat) (l : list A) : M unit :=
  match l with
  | [] => ret tt
  | x :: l' => body i x ;; for_each body (S i) l'
  end.

(** ** The script *)

Variable cfg : config.
Variable ext : externals.

(** Lines 56-61: the unit of the velocity column and the scaling factor. *)
Definition unit_and_factor : result (string * float) :=
  match nmperpix cfg, frpermin cfg with
  | Some np, Some fp =>
      match pydiv 60 fp with
      | Ok d =>
          match pydiv np d with
          | Ok f => Ok ("nm/s"%string, f)
          | Raise e => Raise e
          end
      | Raise e => Raise e
      end
  | _, _ => Ok ("pixels/frame"%string, 1%float)
  end.

(** Lines 63-75. *)
Definition header (unit : string) : row :=
  [ CStr "filename";
    CStr ("velocities (" ++ unit ++ ")");
    CStr "forward_wavevector_x";
    CStr "forward_wavevector_y";
    CStr "crests_x (pixel position)";
    CStr "crests_y (pixel position)";
    CStr "frame_nr";
    CStr ("trace_max_1 (" ++ str_of_number ext (sampling_width cfg) ++ "*pixels)");
    CStr "intensity_max_1";
    CStr ("trace_max_2 (" ++ str_of_number ext (sampling_width cfg) ++ "*pixels)");
    CStr "intensity_max_2" ]%string.

(** Lines 132-146: the row of record [n]; the list display is evaluated
    left to right, so the first index out of range raises. *)
Definition data_row (stackname : string) (factor : float) (out : analysis_out)
    (n : nat) : M row :=
  v <- getitem (velocities out) n ;;
  fx <- getitem (forward_wavevector_x out) n ;;
  fy <- getitem (forward_wavevector_y out) n ;;
  cx <- getitem (crests_x out) n ;;
  cy <- getitem (crests_y out) n ;;
  fr <- getitem (framenr out) n ;;
  x1 <- getitem (max_x1 out) n ;;
  y1 <- getitem (max_y1 out) n ;;
  x2 <- getitem (max_x2 out) n ;;
  y2 <- getitem (max_y2 out) n ;;
  ret [ CStr stackname; CNum (v * factor)%float; CNum fx; CNum fy; CNum cx;
        CNum cy; CNum fr; CNum x1; CNum y1; CNum x2; CNum y2 ].

(** Lines 128-146. *)
Definition save_rows (i : nat) (stackname : string) (factor : float)
    (out : analysis_out) : M unit :=
  open_append i ;;
  for_each (fun _ n => r <- data_row stackname factor out n ;;
                       writerow (EvWriteRow i n r) r)
           0 (seq 0 (List.length (velocities out))).

(** Lines 111-121: the arguments of the call, given the value read from
    [halfspan_tmp]. *)
Definition analysis_args (Min_st : ImageStack) (h : Z) : call_args :=
  {| arg_stack := Min_st;
     arg_frames_to_analyse := frames_to_analyse cfg;
     arg_halfspan := h;
     arg_sampling_width := sampling_width cfg;
     arg_edge := edge cfg;
     arg_bins_wheel := bins_wheel cfg;
     arg_binwidth_sum := binwidth_sum cfg;
     arg_kernel_size_general := kernel_size_general cfg;
     arg_kernel_size_flow := kernel_size_flow cfg;
     look_ahead := 1;
     demo := true |}.

Definition savename (stackname : string) : string :=
  (stackname ++ "_velocity_wheel.png")%string.

(** Lines 87-146: the body of the stack loop. *)
Definition process_stack (factor : float) (i : nat) (s : stack) : M unit :=
  let Min_st := imread s in
  let stackname := stem s in
  emit (EvLoad i stackname) ;;
  (match halfspan cfg with
   | None =>
       h <- call (get_auto_halfspan ext Min_st (frames_to_analyse cfg)) ;;
       assign_halfspan_tmp h ;;
       emit (EvAutoHalfspan i h)
   | Some _ => ret tt
   end) ;;
  h <- read_halfspan_tmp ;;
  emit (EvAnalysis i (analysis_args Min_st h)) ;;
  out <- call (local_velocity_analysis ext (analysis_args Min_st h)) ;;
  emit (EvSaveFig i (savename stackname) (fig out)) ;;
  save_rows i stackname factor out.

(** Lines 53-146: the module from the unit factor on, in a directory that
    exists; [stacks] is what the glob yields.  Lines 49-51, which make the
    directory, are [make_outpath]; the module from line 49 on is
    [program]. *)
Definition script (stacks : list stack) : M unit :=
  uf <- lift unit_and_factor ;;
  open_write ;;
  writerow (EvWriteHeader (header (fst uf))) (header (fst uf)) ;;
  for_each (process_stack (snd uf)) 0 stacks.

(** A run starts with [halfspan_tmp] unbound and nothing logged. *)
Definition initial (w : World) (old_csv : option (list row)) : pystate :=
  {| world := w; halfspan_tmp := None; csv_file := old_csv; log := [] |}.

Definition run (stacks : list stack) (w : World) (old_csv : option (list row))
    : result unit * pystate :=
  script stacks (initial w old_csv).

End Script.

Arguments pystate World : clear implicits.
Arguments externals World : clear implicits.

(** ** Reading the rows and the log *)

Definition obind {A B} (o : option A) (k : A -> option B) : option B :=
  match o with Some a => k a | None => None end.

(** The row of record [n] when all ten sequences have an entry [n]. *)
Definition row_at (stackname : string) (factor : float) (out : analysis_out)
    (n : nat) : option row :=
  obind (nth_error (velocities out) n) (fun v =>
  obind (nth_error (forward_wavevector_x out) n) (fun fx =>
  obind (nth_error (forward_wavevector_y out) n) (fun fy =>
  obind (nth_error (crests_x out) n) (fun cx =>
  obind (nth_error (crests_y out) n) (fun cy =>
  obind (nth_error (framenr out) n) (fun fr =>
  obind (nth_error (max_x1 out) n) (fun x1 =>
  obind (nth_error (max_y1 out) n) (fun y1 =>
  obind (nth_error (max_x2 out) n) (fun x2 =>
  obind (nth_error (max_y2 out) n) (fun y2 =>
  Some [ CStr stackname; CNum (v * factor)%float; CNum fx; CNum fy; CNum cx;
         CNum cy; CNum fr; CNum x1; CNum y1; CNum x2; CNum y2 ])))))))))).

(** The rows the loop of lines 131-146 gets to write over the indices [l],
    and whether it reaches the end of [l]. *)
Fixpoint written (stackname : string) (factor : float) (out : analysis_out)
    (l : list nat) : list (nat * row) * bool :=
  match l with
  | [] => ([], true)
  | n :: l' =>
      match row_at stackname factor out n with
      | Some r =>
          let (rs, ok) := written stackname factor out l' in ((n, r) :: rs, ok)
      | None => ([], false)
      end
  end.

Definition row_event (i : nat) (nr : nat * row) : event :=
  EvWriteRow i (fst nr) (snd nr).

(** The ten per-record sequences have one length. *)
Definition aligned (out : analysis_out) : Prop :=
  let k := List.length (velocities out) in
  List.length (forward_wavevector_x out) = k /\
  List.length (forward_wavevector_y out) = k /\
  List.length (crests_x out) = k /\
  List.length (crests_y out) = k /\
  List.length (framenr out) = k /\
  List.length (max_x1 out) = k /\
  List.length (max_y1 out) = k /\
  List.length (max_x2 out) = k /\
  List.length (max_y2 out) = k.

(** The stack an event belongs to; the two events of the file creation
    belong to none. *)
Definition stack_of (e : event) : option nat :=
  match e with
  | EvOpenWrite | EvWriteHeader _ => None
  | EvLoad i _ | EvAutoHalfspan i _ | EvAnalysis i _ | EvSaveFig i _ _
  | EvOpenAppend i | EvWriteRow i _ _ => Some i
  end.

(** What a sequence of events does to the CSV file. *)
Definition replay1 (f : option (list row)) (e : event) : option (list row) :=
  match e with
  | EvOpenWrite => Some []
  | EvWriteHeader r | EvWriteRow _ _ r => Some (contents f ++ [r])
  | EvOpenAppend _ => Some (contents f)
  | _ => f
  end.

Definition replay (evs : list event) (f : option (list row)) : option (list row) :=
  fold_left replay1 evs f.

(** The data rows written, in the order of the log. *)
Fixpoint data_rows (evs : list event) : list row :=
  match evs with
  | [] => []
  | EvWriteRow _ _ r :: evs' => r :: data_rows evs'
  | _ :: evs' => data_rows evs'
  end.




(** ** The outcomes of one iteration of the stack loop *)

Section Iteration.

Variable World : Type.
Variable cfg : config.
Variable ext : externals World.

(** How the halfspan argument of iteration [i] came about: assigned from
    [get_auto_halfspan] in this iteration (lines 91-93), or left in
    [halfspan_tmp] by whatever bound it before. *)
Inductive halfspan_choice (i : nat) (s : stack) (st : pystate World)
  : list event -> Z -> Prop :=
| choice_auto (w w' : World) (h : Z) :
    halfspan cfg = None ->
    get_auto_halfspan ext (imread s) (frames_to_analyse cfg) w = (Ok h, w') ->
    halfspan_choice i s st [EvAutoHalfspan i h] h
| choice_bound (h0 h : Z) :
    halfspan cfg = Some h0 ->
    halfspan_tmp st = Some h ->
    halfspan_choice i s st [] h.

(** The four ways through the loop body: result, events and rows written. *)
Inductive iteration (factor : float) (i : nat) (s : stack) (st : pystate World)
  : result unit -> list event -> list row -> Prop :=
| it_auto_raises (w w' : World) (e : exn) :
    halfspan cfg = None ->
    get_auto_halfspan ext (imread s) (frames_to_analyse cfg) w = (Raise e, w') ->
    iteration factor i s st (Raise e) [EvLoad i (stem s)] []
| it_unbound (h0 : Z) :
    halfspan cfg = Some h0 ->
    halfspan_tmp st = None ->
    iteration factor i s st (Raise (NameError "halfspan_tmp"))
      [EvLoad i (stem s)] []
| it_analysis_raises (pre : list event) (h : Z) (w w' : World) (e : exn) :
    halfspan_choice i s st pre h ->
    local_velocity_analysis ext (analysis_args cfg (imread s) h) w = (Raise e, w') ->
    iteration factor i s st (Raise e)
      (EvLoad i (stem s) :: pre ++ [EvAnalysis i (analysis_args cfg (imread s) h)])
      []
| it_saved (pre : list event) (h : Z) (w w' : World) (out : analysis_out) :
    halfspan_choice i s st pre h ->
    local_velocity_analysis ext (analysis_args cfg (imread s) h) w = (Ok out, w') ->
    iteration factor i s st
      (if snd (written (stem s) factor out (seq 0 (List.length (velocities out))))
       then Ok tt else Raise IndexError)
      (EvLoad i (stem s) :: pre ++
       [EvAnalysis i (analysis_args cfg (imread s) h);
        EvSaveFig i (savename (stem s)) (fig out);
        EvOpenAppend i] ++
       map (row_event i)
         (fst (written (stem s) factor out (seq 0 (List.length (velocities out))))))
      (map snd
         (fst (written (stem s) factor out (seq 0 (List.length (velocities out)))))).

(** The loop of line 84 from position [i] on: the blocks of events of the
    iterations it runs, one per stack, up to the first exception. *)
Inductive loop_shape (factor : float)
  : nat -> list stack -> pystate World -> result unit -> list (list event) -> Prop :=
| shape_done (i : nat) (st : pystate World) :
    loop_shape factor i [] st (Ok tt) []
| shape_stop (i : nat) (s : stack) (rest : list stack) (st : pystate World)
    (e : exn) (evs : list event) (rows : list row) :
    iteration factor i s st (Raise e) evs rows ->
    loop_shape factor i (s :: rest) st (Raise e) [evs]
| shape_next (i : nat) (s : stack) (rest : list stack) (st st1 : pystate World)
    (evs : list event) (rows : list row) (r : result unit)
    (blocks : list (list event)) :
    iteration factor i s st (Ok tt) evs rows ->
    process_stack cfg ext factor i s st = (Ok tt, st1) ->
    loop_shape factor (S i) rest st1 r blocks ->
    loop_shape factor i (s :: rest) st r (evs :: blocks).

End Iteration.

(** ** Sample inputs *)

(** A copy of the settings with another [halfspan]. *)
Definition with_halfspan (h : option Z) (c : config) : config :=
  {| nmperpix := nmperpix c; frpermin := frpermin c;
     frames_to_analyse := frames_to_analyse c; halfspan := h;
     sampling_width := sampling_width c; edge := edge c;
     bins_wheel := bins_wheel c; binwidth_sum := binwidth_sum c;
     kernel_size_general := kernel_size_general c;
     kernel_size_flow := kernel_size_flow c |}.

(** A copy of the settings with other physical units. *)
Definition with_units (np fp : option float) (c : config) : config :=
  {| nmperpix := np; frpermin := fp;
     frames_to_analyse := frames_to_analyse c; halfspan := halfspan c;
     sampling_width := sampling_width c; edge := edge c;
     bins_wheel := bins_wheel c; binwidth_sum := binwidth_sum c;
     kernel_size_general := kernel_size_general c;
     kernel_size_flow := kernel_size_flow c |}.

(** Two records, as an analysis could return them. *)
Definition sample_out : analysis_out :=
  {| velocities := [1.5; 2]%float;
     forward_wavevector_x := [1; 0]%float;
     forward_wavevector_y := [0; 1]%float;
     wheels := [];
     crests_x := [12; 40]%float;
     crests_y := [7; 7]%float;
     framenr := [0; 1]%float;
     max_x1 := [10; 11]%float;
     max_y1 := [100; 90]%float;
     max_x2 := [16; 19]%float;
     max_y2 := [101; 92]%float;
     fig := 0%nat; ax_wheel := 1%nat; ax_sum := 2%nat |}.

(** An analysis result whose sequences are not index-aligned. *)
Definition ragged_out : analysis_out :=
  {| velocities := [1.5; 2]%float;
     forward_wavevector_x := [1]%float;
     forward_wavevector_y := [0; 1]%float;
     wheels := [];
     crests_x := [12; 40]%float;
     crests_y := [7; 7]%float;
     framenr := [0; 1]%float;
     max_x1 := [10; 11]%float;
     max_y1 := [100; 90]%float;
     max_x2 := [16; 19]%float;
     max_y2 := [101; 92]%float;
     fig := 0%nat; ax_wheel := 1%nat; ax_sum := 2%nat |}.

(** Imported functions that ignore their input: halfspan 7 and
    [sample_out] for every stack. *)
Definition sample_ext : externals unit :=
  {| get_auto_halfspan := fun _ _ w => (Ok 7%Z, w);
     local_velocity_analysis := fun _ w => (Ok sample_out, w);
     str_of_number := fun _ => "0.25"%string |}.

Definition stack_a : stack := {| stem := "a"; imread := [] |}.
Definition stack_b : stack := {| stem := "b"; imread := [] |}.

(** The events of an iteration that ran to its end: the load, the halfspan
    (when computed), the call, the figure, and one row per record of the
    result, in the order of the record indices. *)
Definition complete_block (World : Type) (cfg : config) (ext : externals World)
    (factor : float) (i : nat) (s : stack) (b : list event) : Prop :=
  exists (pre : list event) (h : Z) (out : analysis_out) (w w' : World)
         (rowevs : list event),
    Forall (fun e => exists h', e = EvAutoHalfspan i h') pre /\
    local_velocity_analysis ext (analysis_args cfg (imread s) h) w = (Ok out, w') /\
    Forall2 (fun n e => exists r, row_at (stem s) factor out n = Some r /\
                                  e = EvWriteRow i n r)
            (seq 0 (List.length (velocities out))) rowevs /\
    b = EvLoad i (stem s) :: pre ++
        [EvAnalysis i (analysis_args cfg (imread s) h);
         EvSaveFig i (savename (stem s)) (fig out);
         EvOpenAppend i] ++ rowevs.

(** ** Runs in different worlds *)

(** The imported functions return what their arguments determine, whatever
    the world they run in (no random seed, no clock). *)
Definition pure_externals (World : Type) (ext : externals World) : Prop :=
  (forall Min_st n w w',
     fst (get_auto_halfspan ext Min_st n w) = fst (get_auto_halfspan ext Min_st n w')) /\
  (forall a w w',
     fst (local_velocity_analysis ext a w) = fst (local_velocity_analysis ext a w')).

(** Two interpreter states that differ in the world only. *)
Definition same_but_world (World : Type) (st1 st2 : pystate World) : Prop :=
  halfspan_tmp st1 = halfspan_tmp st2 /\
  csv_file st1 = csv_file st2 /\
  log st1 = log st2.

(** A statement that does the same in two such states. *)
Definition world_blind (World : Type) (A : Type) (m : M World A) : Prop :=
  forall st1 st2, same_but_world st1 st2 ->
    fst (m st1) = fst (m st2) /\ same_but_world (snd (m st1)) (snd (m st2)).

(** Imported functions that count their calls in the world and return
    what [sample_ext] returns. *)
Definition counting_ext : externals nat :=
  {| get_auto_halfspan := fun _ _ w => (Ok 7%Z, S w);
     local_velocity_analysis := fun _ w => (Ok sample_out, S w);
     str_of_number := fun _ => "0.25"%string |}.

(** ** The specification's statements about the script *)

(** Some run calls the analysis with [look_ahead = la]. *)
Definition invoked_with (la : Z) : Prop :=
  exists (World : Type) (cfg : config) (ext : externals World)
         (stacks : list stack) (w : World) (old : option (list row))
         (i : nat) (a : call_args),
    In (EvAnalysis i a) (log (snd (run cfg ext stacks w old))) /\
    look_ahead a = la.

(** The row of record [n] in the specification's words: the ten values of
    the record, the velocity magnitude first. *)
Definition spec_row (out : analysis_out) (n : nat) : option row :=
  obind (nth_error (velocities out) n) (fun v =>
  obind (nth_error (forward_wavevector_x out) n) (fun fx =>
  obind (nth_error (forward_wavevector_y out) n) (fun fy =>
  obind (nth_error (crests_x out) n) (fun cx =>
  obind (nth_error (crests_y out) n) (fun cy =>
  obind (nth_error (framenr out) n) (fun fr =>
  obind (nth_error (max_x1 out) n) (fun x1 =>
  obind (nth_error (max_y1 out) n) (fun y1 =>
  obind (nth_error (max_x2 out) n) (fun x2 =>
  obind (nth_error (max_y2 out) n) (fun y2 =>
  Some [ CNum v; CNum fx; CNum fy; CNum cx; CNum cy; CNum fr;
         CNum x1; CNum y1; CNum x2; CNum y2 ])))))))))).



(** * The flow solver of the analysis *)

(** Modelled from the spec: FlowField (section 4.1).  The Horn-Schunck
    solver lives in [min_analysis_tools], which is not among the sources;
    the script only calls [local_velocity_analysis].  The model follows the
    section's words: both frames are pre-smoothed with a low-pass kernel of
    the given size, then a fixed number of sweeps updates a vector field
    from the brightness-constancy residual (temporal derivative plus flow
    times spatial gradient) and the local average of the field, with a
    fixed regularization weight.  The kernel weights, the regularization
    weight and the number of sweeps are parameters: the section names them
    but gives no values.  Frames are read with their border replicated. *)
Module FlowField.

(** A vector [(dx, dy)] per pixel, in the shape of a frame. *)
Definition FlowVectorField : Type := list (list (Q * Q)).

Definition height (f : frame) : nat := List.length f.
Definition width (f : frame) : nat := List.length (hd [] f).

(** The index in [0 .. n-1] nearest to [z]. *)
Definition clamp (n : nat) (z : Z) : nat :=
  Z.to_nat (Z.max 0 (Z.min z (Z.of_nat n - 1))).

(** Intensity at row [y], column [x], the border replicated outwards. *)
Definition pixel (f : frame) (y x : Z) : Q :=
  nth (clamp (width f) x) (nth (clamp (height f) y) f []) 0%Q.

(** The offsets of a window of [k] by [k] pixels around a position. *)
Definition offsets (k : Z) : list Z :=
  map (fun i => Z.of_nat i - k / 2)%Z (seq 0 (Z.to_nat k)).

Definition window (k : Z) : list (Z * Z) := list_prod (offsets k) (offsets k).

Definition total (l : list Q) : Q := fold_right Qplus 0%Q l.

Definition tabulate {A} (h w : nat) (g : Z -> Z -> A) : list (list A) :=
  map (fun y => map (fun x => g (Z.of_nat y) (Z.of_nat x)) (seq 0 w)) (seq 0 h).

Section Solver.

Variable weight : Z -> Z -> Z -> Q.
Variable alpha : Q.
Variable iterations : nat.

(** Weighted mean over the window: the low-pass filter. *)
Definition smooth (k : Z) (g : Z -> Z -> Q) (y x : Z) : Q :=
  (total (map (fun d => weight k (fst d) (snd d) * g (y + fst d)%Z (x + snd d)%Z)
              (window k)) /
   total (map (fun d => weight k (fst d) (snd d)) (window k)))%Q.

Section Pair.

Variable k : Z.
Variables frame_t frame_t1 : frame.

Definition g1 : Z -> Z -> Q := smooth k (pixel frame_t).
Definition g2 : Z -> Z -> Q := smooth k (pixel frame_t1).

(** Spatial gradient (central differences, mean of both frames) and
    temporal derivative. *)
Definition Ix (y x : Z) : Q :=
  (((g1 y (x + 1)%Z - g1 y (x - 1)%Z) + (g2 y (x + 1)%Z - g2 y (x - 1)%Z)) / 4)%Q.
Definition Iy (y x : Z) : Q :=
  (((g1 (y + 1)%Z x - g1 (y - 1)%Z x) + (g2 (y + 1)%Z x - g2 (y - 1)%Z x)) / 4)%Q.
Definition It (y x : Z) : Q := (g2 y x - g1 y x)%Q.

(** One sweep: the field moves from its local average against the
    gradient, by the brightness-constancy residual over the regularized
    squared gradient. *)
Definition sweep (uv : (Z -> Z -> Q) * (Z -> Z -> Q))
    : (Z -> Z -> Q) * (Z -> Z -> Q) :=
  let ubar := smooth k (fst uv) in
  let vbar := smooth k (snd uv) in
  let residual := fun y x =>
    ((Ix y x * ubar y x + Iy y x * vbar y x + It y x) /
     (alpha * alpha + Ix y x * Ix y x + Iy y x * Iy y x))%Q in
  (fun y x => (ubar y x - Ix y x * residual y x)%Q,
   fun y x => (vbar y x - Iy y x * residual y x)%Q).

Fixpoint solve (n : nat) : (Z -> Z -> Q) * (Z -> Z -> Q) :=
  match n with
  | O => (fun _ _ => 0%Q, fun _ _ => 0%Q)
  | S n' => sweep (solve n')
  end.

End Pair.

(** [compute(frame_t, frame_t+1, smoothing_kernel_size)]: the field has the
    dimensions of the first frame. *)
Definition compute (frame_t frame_t1 : frame) (smoothing_kernel_size : Z)
    : FlowVectorField :=
  let uv := solve smoothing_kernel_size frame_t frame_t1 iterations in
  tabulate (height frame_t) (width frame_t) (fun y x => (fst uv y x, snd uv y x)).

End Solver.

(** A frame of [h] rows and [w] columns whose pixels all have intensity [c]. *)
Definition uniform_frame (h w : nat) (c : Q) (f : frame) : Prop :=
  List.length f = h /\
  Forall (fun line => List.length line = w /\ Forall (fun p => p == c)%Q line) f.

(** The zero vector at every position. *)
Definition zero_field (fl : FlowVectorField) : Prop :=
  Forall (Forall (fun d => fst d == 0 /\ snd d == 0)%Q) fl.

(** A box kernel, a regularization weight and a number of sweeps to run
    the solver with. *)
Definition box (k dy dx : Z) : Q := 1%Q.

Definition flat_frame (c : Q) : frame := [[c; c; c]; [c; c; c]].

Definition ramp_frame : frame := [[0; 1; 2]; [0; 1; 2]]%Q.

End FlowField.

(** * The orchestrator of the analysis *)

(** Modelled from the spec: LocalVelocityAnalysis (sections 4.5 and 7).
    The function [local_velocity_analysis] the script calls is in
    [min_analysis_tools], which is not among the sources.  The model
    follows the sections' words: a configuration with a non-positive
    kernel size, frames of different dimensions or more frames to analyse
    than the stack has is reported as [ConfigurationError] before any
    frame pair is processed; otherwise the frame pairs [t = 0 ..
    frames_to_analyse - 2] are processed in increasing order, each with
    its flow field, and the records of all pairs are accumulated in order
    into index-aligned sequences.  Crest detection, sampling and peak
    fitting are one parameter, [observe]; the histograms are not modelled.
    The world of this model is the list of frame pairs processed so far. *)
Module LocalVelocityAnalysis.

Record VelocityRecord : Type := mkRecord {
  velocity : float;
  forward_x : float;
  forward_y : float;
  crest_x : float;
  crest_y : float;
  frame_index : float;
  peak_position_1 : float;
  peak_intensity_1 : float;
  peak_position_2 : float;
  peak_intensity_2 : float
}.

(** A frame pair that was processed: the stack and the index [t]. *)
Definition World : Type := list (ImageStack * nat).

(** The lengths of the rows of a frame: its dimensions. *)
Definition shape (f : frame) : list nat := map (@List.length Q) f.

Definition same_dimensions (st : ImageStack) : bool :=
  match st with
  | [] => true
  | f0 :: rest =>
      forallb (fun f => if list_eq_dec Nat.eq_dec (shape f) (shape f0)
                        then true else false) rest
  end.

Definition valid_configuration (ksize_general ksize_flow frames : Z)
    (st : ImageStack) : bool :=
  (0 <? ksize_general)%Z && (0 <? ksize_flow)%Z && same_dimensions st &&
  (frames <=? Z.of_nat (List.length st))%Z.

(** The state machine's frame indices: [0 .. frames_to_analyse - 2]. *)
Definition frame_pairs (frames : Z) : list nat :=
  seq 0 (Z.to_nat (frames - 1)).

(** The per-stack result: one entry per record in each sequence. *)
Definition collect (recs : list VelocityRecord) : analysis_out :=
  {| velocities := map velocity recs;
     forward_wavevector_x := map forward_x recs;
     forward_wavevector_y := map forward_y recs;
     wheels := [];
     crests_x := map crest_x recs;
     crests_y := map crest_y recs;
     framenr := map frame_index recs;
     max_x1 := map peak_position_1 recs;
     max_y1 := map peak_intensity_1 recs;
     max_x2 := map peak_position_2 recs;
     max_y2 := map peak_intensity_2 recs;
     fig := 0%nat; ax_wheel := 0%nat; ax_sum := 0%nat |}.

Section Orchestrator.

Variable weight : Z -> Z -> Z -> Q.
Variable alpha : Q.
Variable iterations : nat.

(** Steps 2 to 6 of section 4.5 for one frame pair: the records of the
    crests that survive, in scan order. *)
Variable observe :
  call_args -> nat -> frame -> frame -> FlowField.FlowVectorField ->
  list VelocityRecord.

(** The auto-halfspan heuristic and the number formatting. *)
Variable auto_halfspan : ImageStack -> Z -> Z.
Variable str : float -> string.

Definition process_pair (a : call_args) (t : nat) : list VelocityRecord :=
  match nth_error (arg_stack a) t, nth_error (arg_stack a) (S t) with
  | Some f, Some f' =>
      observe a t f f'
        (FlowField.compute weight alpha iterations f f' (arg_kernel_size_flow a))
  | _, _ => []
  end.

Definition analysis (a : call_args) (w : World) : result analysis_out * World :=
  if valid_configuration (arg_kernel_size_general a) (arg_kernel_size_flow a)
       (arg_frames_to_analyse a) (arg_stack a)
  then (Ok (collect (flat_map (process_pair a)
                       (frame_pairs (arg_frames_to_analyse a)))),
        w ++ map (fun t => (arg_stack a, t)) (frame_pairs (arg_frames_to_analyse a)))
  else (Raise ConfigurationError, w).

(** The script's imports, with this orchestrator. *)
Definition as_externals : externals World :=
  {| get_auto_halfspan := fun st n w => (Ok (auto_halfspan st n), w);
     local_velocity_analysis := analysis;
     str_of_number := str |}.

End Orchestrator.

(** A sample orchestrator: one record per frame pair. *)
Definition one_record (a : call_args) (t : nat) (f f' : frame)
    (fl : FlowField.FlowVectorField) : list VelocityRecord :=
  [ {| velocity := 2; forward_x := 1; forward_y := 0; crest_x := 1;
       crest_y := 1; frame_index := PrimFloat.of_uint63 (Uint63.of_Z (Z.of_nat t));
       peak_position_1 := 4; peak_intensity_1 := 9;
       peak_position_2 := 12; peak_intensity_2 := 9 |} ].

Definition sample_orchestrator : externals World :=
  as_externals FlowField.box (1 # 2) 1 one_record (fun _ _ => 10%Z)
    (fun _ => "0.25"%string).

(** Settings for two frames and kernels of one pixel. *)
Definition small_config : config :=
  {| nmperpix := None; frpermin := None; frames_to_analyse := 2;
     halfspan := None; sampling_width := 0.25; edge := 30;
     bins_wheel := 50; binwidth_sum := 2.5;
     kernel_size_general := 1; kernel_size_flow := 1 |}.

(** A stack with too few frames for [small_config], and one with enough. *)
Definition short_stack : stack :=
  {| stem := "short"; imread := [FlowField.flat_frame 1] |}.
Definition long_stack : stack :=
  {| stem := "long"; imread := [FlowField.flat_frame 1; FlowField.flat_frame 2] |}.

End LocalVelocityAnalysis.

(** The specification's statement on a stack with an invalid configuration:
    the rows of the other stacks are what they are without it. *)
Definition others_unaffected (World : Type) (cfg : config) (ext : externals World)
    (before : list stack) (s : stack) (after : list stack) (w : World)
    (old : option (list row)) : Prop :=
  data_rows (log (snd (run cfg ext (before ++ s :: after) w old))) =
  data_rows (log (snd (run cfg ext (before ++ after) w old))).

(** ** The output directory (lines 49-51) *)

(** What is at [<inpath>_local_velocity] when the module starts: the parent
    of the input path may be missing, the path may be free or taken by a
    file, or the directory is there, with or without a result file. *)
Inductive outdir : Type :=
| NoParent
| Absent
| NotADirectory
| Directory (csv : option (list row)).

(** Lines 50-51: [if not outpath.is_dir(): outpath.mkdir()].  The result
    is the result file the directory holds. *)
Definition make_outpath (d : outdir) : result (option (list row)) :=
  match d with
  | Directory csv => Ok csv
  | Absent => Ok None
  | NotADirectory => Raise FileExistsError
  | NoParent => Raise FileNotFoundError
  end.

(** Lines 49-146: the directory, then the rest of the module.  The outcome
    is the result, the output directory afterwards and the events. *)
Definition program (World : Type) (cfg : config) (ext : externals World)
    (stacks : list stack) (w : World) (d : outdir)
    : result unit * outdir * list event :=
  match make_outpath d with
  | Raise e => (Raise e, d, [])
  | Ok csv =>
      let rs := run cfg ext stacks w csv in
      (fst rs, Directory (csv_file (snd rs)), log (snd rs))
  end.


(** ** More readings of a result *)





(** The length of the shortest of the ten per-record sequences. *)
Definition shortest (out : analysis_out) : nat :=
  fold_right Nat.min (List.length (velocities out))
    [ List.length (forward_wavevector_x out);
      List.length (forward_wavevector_y out);
      List.length (crests_x out);
      List.length (crests_y out);
      List.length (framenr out);
      List.length (max_x1 out);
      List.length (max_y1 out);
      List.length (max_x2 out);
      List.length (max_y2 out) ].

(** Imported functions that return [ragged_out] for every stack. *)
Definition ragged_ext : externals unit :=
  {| get_auto_halfspan := fun _ _ w => (Ok 7%Z, w);
     local_velocity_analysis := fun _ w => (Ok ragged_out, w);
     str_of_number := fun _ => "0.25"%string |}.

(** Imported functions whose analysis fails on a stack without frames. *)
Definition failing_ext : externals unit :=
  {| get_auto_halfspan := fun _ _ w => (Ok 7%Z, w);
     local_velocity_analysis := fun a w =>
       match arg_stack a with
       | [] => (Raise (OtherError "empty stack"), w)
       | _ => (Ok sample_out, w)
       end;
     str_of_number := fun _ => "0.25"%string |}.

Definition stack_c : stack := {| stem := "a"; imread := [[[1]]] |}.


(** * Facts about the script *)

Section ScriptFacts.

Variable World : Type.
Variable cfg : config.
Variable ext : externals World.

Ltac run_monad :=
  unfold bind, ret, raise, lift, emit, set_csv, call, assign_halfspan_tmp,
    read_halfspan_tmp, open_write, open_append, writerow, getitem in *;
  simpl in *.

Lemma bind_eq {A B} (m : M World A) (k : A -> M World B) (st : pystate World) :
  bind m k st =
  match m st with
  | (Ok a, st') => k a st'
  | (Raise e, st') => (Raise e, st')
  end.
Proof. reflexivity. Qed.

Lemma open_append_eq (i : nat) (st : pystate World) :
  open_append i st =
  (Ok tt, {| world := world st; halfspan_tmp := halfspan_tmp st;
             csv_file := Some (contents (csv_file st));
             log := log st ++ [EvOpenAppend i] |}).
Proof. reflexivity. Qed.

Lemma writerow_eq (e : event) (r : row) (st : pystate World) :
  writerow e r st =
  (Ok tt, {| world := world st; halfspan_tmp := halfspan_tmp st;
             csv_file := Some (contents (csv_file st) ++ [r]);
             log := log st ++ [e] |}).
Proof. reflexivity. Qed.

Lemma emit_eq (e : event) (st : pystate World) :
  emit e st =
  (Ok tt, {| world := world st; halfspan_tmp := halfspan_tmp st;
             csv_file := csv_file st; log := log st ++ [e] |}).
Proof. reflexivity. Qed.

(** The indexing of lines 135-144 succeeds exactly when [row_at] has a row. *)
Lemma data_row_eq (name : string) (f : float) (out : analysis_out) (n : nat)
    (st : pystate World) :
  data_row name f out n st =
  (match row_at name f out n with Some r => Ok r | None => Raise IndexError end, st).
Proof.
  unfold data_row, row_at, obind. run_monad.
  repeat (match goal with
          | |- context [nth_error ?l n] => destruct (nth_error l n); simpl
          end; try reflexivity).
Qed.

(** The row loop writes the rows of [written], in order, and raises
    [IndexError] when [written] stops early. *)
Lemma row_loop_eq (i : nat) (name : string) (f : float) (out : analysis_out)
    (l : list nat) :
  forall (j : nat) (st : pystate World) (c : list row),
    csv_file st = Some c ->
    for_each (fun _ n => bind (data_row name f out n)
                           (fun r => writerow (EvWriteRow i n r) r)) j l st =
    ((if snd (written name f out l) then Ok tt else Raise IndexError),
     {| world := world st; halfspan_tmp := halfspan_tmp st;
        csv_file := Some (c ++ map snd (fst (written name f out l)));
        log := log st ++ map (row_event i) (fst (written name f out l)) |}).
Proof.
  induction l as [|n l IH]; intros j st c Hc.
  - simpl. unfold ret. destruct st; simpl in *. subst. now rewrite !app_nil_r.
  - simpl. rewrite !bind_eq, data_row_eq.
    destruct (row_at name f out n) as [r|] eqn:Er.
    + rewrite writerow_eq, Hc. simpl.
      erewrite IH by reflexivity. simpl.
      destruct (written name f out l) as [rs ok]. simpl.
      now rewrite <- !app_assoc.
    + simpl. destruct st; simpl in *. subst. now rewrite !app_nil_r.
Qed.

Lemma save_rows_eq (i : nat) (name : string) (f : float) (out : analysis_out)
    (st : pystate World) :
  save_rows i name f out st =
  (let w := written name f out (seq 0 (List.length (velocities out))) in
   ((if snd w then Ok tt else Raise IndexError),
    {| world := world st; halfspan_tmp := halfspan_tmp st;
       csv_file := Some (contents (csv_file st) ++ map snd (fst w));
       log := log st ++ EvOpenAppend i :: map (row_event i) (fst w) |})).
Proof.
  unfold save_rows. rewrite bind_eq, open_append_eq.
  erewrite row_loop_eq by reflexivity. simpl.
  now rewrite <- app_assoc.
Qed.

Lemma replay_app (a b : list event) (f : option (list row)) :
  replay (a ++ b) f = replay b (replay a f).
Proof. unfold replay. apply fold_left_app. Qed.

Lemma replay_rows (i : nat) (rs : list (nat * row)) :
  forall c : list row,
    replay (map (row_event i) rs) (Some c) = Some (c ++ map snd rs).
Proof.
  induction rs as [|[n r] rs IH]; intros c; simpl.
  - now rewrite app_nil_r.
  - unfold replay in *. simpl. rewrite IH. now rewrite <- app_assoc.
Qed.

(** Every run of the loop body is one of the four outcomes of [iteration];
    its events are added to the log, and the file changes only when rows
    are reached. *)
Lemma process_stack_iteration (factor : float) (i : nat) (s : stack)
    (st st' : pystate World) (r : result unit) :
  process_stack cfg ext factor i s st = (r, st') ->
  exists evs rows,
    iteration cfg ext factor i s st r evs rows /\
    log st' = log st ++ evs /\
    csv_file st' = replay evs (csv_file st).
Proof.
  unfold process_stack. rewrite bind_eq, emit_eq, bind_eq.
  destruct (halfspan cfg) as [h0|] eqn:Eh.
  - unfold ret at 1. rewrite bind_eq. unfold read_halfspan_tmp. simpl.
    destruct (halfspan_tmp st) as [h|] eqn:Et.
    + rewrite bind_eq, emit_eq, bind_eq. unfold call at 1. simpl.
      destruct (local_velocity_analysis ext (analysis_args cfg (imread s) h) (world st))
        as [[out|e] w'] eqn:El.
      * rewrite bind_eq, emit_eq, save_rows_eq. simpl.
        intros H; inversion H; subst; clear H.
        eexists _, _. split; [|split].
        -- eapply it_saved with (pre := []); [eapply choice_bound; eauto | exact El].
        -- simpl. rewrite <- !app_assoc. reflexivity.
        -- simpl. unfold replay at 1. simpl. apply eq_sym, replay_rows.
      * intros H; inversion H; subst; clear H.
        eexists _, _. split; [|split].
        -- eapply it_analysis_raises with (pre := []); [eapply choice_bound; eauto | exact El].
        -- simpl. rewrite <- !app_assoc. reflexivity.
        -- reflexivity.
    + intros H; inversion H; subst; clear H.
      eexists _, _. split; [|split].
      * eapply it_unbound; eauto.
      * reflexivity.
      * reflexivity.
  - rewrite bind_eq. unfold call at 1. simpl.
    destruct (get_auto_halfspan ext (imread s) (frames_to_analyse cfg) (world st))
      as [[h|e] w1] eqn:Ea.
    + rewrite bind_eq. unfold assign_halfspan_tmp at 1. rewrite emit_eq. simpl.
      rewrite bind_eq. unfold read_halfspan_tmp. simpl.
      rewrite bind_eq, emit_eq, bind_eq. unfold call at 1. simpl.
      destruct (local_velocity_analysis ext (analysis_args cfg (imread s) h) w1)
        as [[out|e] w'] eqn:El.
      * rewrite bind_eq, emit_eq, save_rows_eq. simpl.
        intros H; inversion H; subst; clear H.
        eexists _, _. split; [|split].
        -- eapply it_saved; [eapply choice_auto; eauto | exact El].
        -- simpl. rewrite <- !app_assoc. reflexivity.
        -- simpl. unfold replay at 1. simpl. apply eq_sym, replay_rows.
      * intros H; inversion H; subst; clear H.
        eexists _, _. split; [|split].
        -- eapply it_analysis_raises; [eapply choice_auto; eauto | exact El].
        -- simpl. rewrite <- !app_assoc. reflexivity.
        -- reflexivity.
    + intros H; inversion H; subst; clear H.
      eexists _, _. split; [|split].
      * eapply it_auto_raises; eauto.
      * reflexivity.
      * reflexivity.
Qed.

(** The loop runs the iterations one after the other and stops at the first
    exception. *)
Lemma loop_blocks (factor : float) (stacks : list stack) :
  forall (i : nat) (st st' : pystate World) (r : result unit),
    for_each (process_stack cfg ext factor) i stacks st = (r, st') ->
    exists blocks,
      loop_shape cfg ext factor i stacks st r blocks /\
      log st' = log st ++ List.concat blocks /\
      csv_file st' = replay (List.concat blocks) (csv_file st).
Proof.
  induction stacks as [|s rest IH]; intros i st st' r H.
  - simpl in H. unfold ret in H. inversion H; subst.
    exists []. simpl. rewrite app_nil_r. repeat split. constructor.
  - simpl in H. rewrite bind_eq in H.
    destruct (process_stack cfg ext factor i s st) as [[[]|e] st1] eqn:Ep.
    + destruct (process_stack_iteration _ _ _ _ Ep) as (evs & rows & Hit & Hlog & Hcsv).
      destruct (IH _ _ _ _ H) as (blocks & Hsh & Hlog' & Hcsv').
      exists (evs :: blocks). split; [|split].
      * eapply shape_next; eauto.
      * simpl. rewrite Hlog', Hlog. now rewrite app_assoc.
      * simpl. rewrite replay_app, <- Hcsv. exact Hcsv'.
    + inversion H; subst.
      destruct (process_stack_iteration _ _ _ _ Ep) as (evs & rows & Hit & Hlog & Hcsv).
      exists [evs]. simpl. rewrite app_nil_r. split; [|split]; auto.
      eapply shape_stop; eauto.
Qed.

(** The script up to the loop: the factor, then the file with its header. *)
Lemma script_eq (stacks : list stack) (st : pystate World) :
  script cfg ext stacks st =
  match unit_and_factor cfg with
  | Raise e => (Raise e, st)
  | Ok uf =>
      for_each (process_stack cfg ext (snd uf)) 0 stacks
        {| world := world st; halfspan_tmp := halfspan_tmp st;
           csv_file := Some [header cfg ext (fst uf)];
           log := (log st ++ [EvOpenWrite]) ++ [EvWriteHeader (header cfg ext (fst uf))] |}
  end.
Proof.
  unfold script. rewrite bind_eq. unfold lift.
  destruct (unit_and_factor cfg) as [uf|e]; reflexivity.
Qed.

(** A run either stops at the division of line 58, before anything is
    written, or creates the file and enters the loop. *)
Lemma run_cases (stacks : list stack) (w : World) (old : option (list row))
    (r : result unit) (st : pystate World) :
  run cfg ext stacks w old = (r, st) ->
  (exists e, unit_and_factor cfg = Raise e /\ r = Raise e /\ st = initial w old) \/
  (exists uf st0 blocks,
     unit_and_factor cfg = Ok uf /\
     halfspan_tmp st0 = None /\
     loop_shape cfg ext (snd uf) 0 stacks st0 r blocks /\
     log st = [EvOpenWrite; EvWriteHeader (header cfg ext (fst uf))] ++ List.concat blocks /\
     csv_file st = replay (List.concat blocks) (Some [header cfg ext (fst uf)])).
Proof.
  unfold run. rewrite script_eq.
  destruct (unit_and_factor cfg) as [uf|e] eqn:Eu.
  - intros H. right. destruct (loop_blocks _ _ _ _ H) as (blocks & Hsh & Hlog & Hcsv).
    exists uf. eexists. exists blocks.
    split; [reflexivity|]. split; [|split; [exact Hsh|split; [exact Hlog|exact Hcsv]]].
    reflexivity.
  - intros H. inversion H; subst. left. eauto.
Qed.


(** Every block of the loop is the block of some iteration. *)
Lemma loop_shape_block (factor : float) (i : nat) (stacks : list stack)
    (st : pystate World) (r : result unit) (blocks : list (list event)) :
  loop_shape cfg ext factor i stacks st r blocks ->
  forall b, In b blocks ->
    exists k s stk rk rows,
      nth_error stacks k = Some s /\
      iteration cfg ext factor (i + k) s stk rk b rows.
Proof.
  induction 1 as [i st | i s rest st e evs rows Hit
                 | i s rest st st1 evs rows r blocks Hit Hp Hsh IH]; intros b Hb.
  - destruct Hb.
  - destruct Hb as [<-|[]]. exists 0%nat, s, st, (Raise e), rows.
    rewrite Nat.add_0_r. split; [reflexivity | exact Hit].
  - destruct Hb as [<-|Hb].
    + exists 0%nat, s, st, (Ok tt), rows.
      rewrite Nat.add_0_r. split; [reflexivity | exact Hit].
    + destruct (IH _ Hb) as (k & s' & stk & rk & rows' & Hn & Hit').
      exists (S k), s', stk, rk, rows'. split; [exact Hn|].
      now rewrite Nat.add_succ_r.
Qed.

End ScriptFacts.

(** * Rows and indices *)

Lemma nth_error_in_range {A} (l : list A) (n : nat) :
  (n < List.length l)%nat -> exists x, nth_error l n = Some x.
Proof.
  intros H. destruct (nth_error l n) as [x|] eqn:E; [eauto|].
  apply nth_error_None in E. lia.
Qed.

(** With index-aligned sequences, every record index has its row. *)
Lemma row_at_aligned (name : string) (f : float) (out : analysis_out) (n : nat) :
  aligned out -> (n < List.length (velocities out))%nat ->
  exists v fx fy cx cy fr x1 y1 x2 y2,
    nth_error (velocities out) n = Some v /\
    nth_error (forward_wavevector_x out) n = Some fx /\
    nth_error (forward_wavevector_y out) n = Some fy /\
    nth_error (crests_x out) n = Some cx /\
    nth_error (crests_y out) n = Some cy /\
    nth_error (framenr out) n = Some fr /\
    nth_error (max_x1 out) n = Some x1 /\
    nth_error (max_y1 out) n = Some y1 /\
    nth_error (max_x2 out) n = Some x2 /\
    nth_error (max_y2 out) n = Some y2 /\
    row_at name f out n =
    Some [ CStr name; CNum (v * f)%float; CNum fx; CNum fy; CNum cx; CNum cy;
           CNum fr; CNum x1; CNum y1; CNum x2; CNum y2 ].
Proof.
  intros (H1 & H2 & H3 & H4 & H5 & H6 & H7 & H8 & H9) Hn.
  destruct (nth_error_in_range (velocities out) Hn) as [v Ev].
  destruct (nth_error_in_range (forward_wavevector_x out) (n := n)) as [fx Efx]; [lia|].
  destruct (nth_error_in_range (forward_wavevector_y out) (n := n)) as [fy Efy]; [lia|].
  destruct (nth_error_in_range (crests_x out) (n := n)) as [cx Ecx]; [lia|].
  destruct (nth_error_in_range (crests_y out) (n := n)) as [cy Ecy]; [lia|].
  destruct (nth_error_in_range (framenr out) (n := n)) as [fr Efr]; [lia|].
  destruct (nth_error_in_range (max_x1 out) (n := n)) as [x1 Ex1]; [lia|].
  destruct (nth_error_in_range (max_y1 out) (n := n)) as [y1 Ey1]; [lia|].
  destruct (nth_error_in_range (max_x2 out) (n := n)) as [x2 Ex2]; [lia|].
  destruct (nth_error_in_range (max_y2 out) (n := n)) as [y2 Ey2]; [lia|].
  exists v, fx, fy, cx, cy, fr, x1, y1, x2, y2.
  unfold row_at. rewrite Ev, Efx, Efy, Ecx, Ecy, Efr, Ex1, Ey1, Ex2, Ey2.
  simpl. repeat split; reflexivity.
Qed.

(** Whatever [row_at] returns has the eleven cells of lines 133-145. *)
Lemma row_at_inv (name : string) (f : float) (out : analysis_out) (n : nat) (r : row) :
  row_at name f out n = Some r ->
  exists v fx fy cx cy fr x1 y1 x2 y2,
    nth_error (velocities out) n = Some v /\
    nth_error (forward_wavevector_x out) n = Some fx /\
    nth_error (forward_wavevector_y out) n = Some fy /\
    nth_error (crests_x out) n = Some cx /\
    nth_error (crests_y out) n = Some cy /\
    nth_error (framenr out) n = Some fr /\
    nth_error (max_x1 out) n = Some x1 /\
    nth_error (max_y1 out) n = Some y1 /\
    nth_error (max_x2 out) n = Some x2 /\
    nth_error (max_y2 out) n = Some y2 /\
    r = [ CStr name; CNum (v * f)%float; CNum fx; CNum fy; CNum cx; CNum cy;
          CNum fr; CNum x1; CNum y1; CNum x2; CNum y2 ].
Proof.
  unfold row_at, obind. intros H.
  repeat match type of H with
         | context [nth_error ?l n] =>
             destruct (nth_error l n); [|discriminate]
         end.
  inversion H; subst.
  do 10 eexists. repeat split; reflexivity.
Qed.

(** The loop over [l] writes a row for every index of [l], in the order of
    [l], as long as every index has a row. *)
Lemma written_all (name : string) (f : float) (out : analysis_out) (l : list nat) :
  (forall n, In n l -> row_at name f out n <> None) ->
  snd (written name f out l) = true /\
  map fst (fst (written name f out l)) = l.
Proof.
  induction l as [|n l IH]; intros H; simpl; [split; reflexivity|].
  destruct (row_at name f out n) as [r|] eqn:Er.
  - destruct IH as [IH1 IH2]; [intros m Hm; apply H; now right|].
    destruct (written name f out l) as [rs ok]. simpl in *.
    split; [exact IH1 | now rewrite IH2].
  - exfalso. apply (H n); [now left | exact Er].
Qed.

(** Each entry of [written] is the row of its index, and the indices are a
    prefix of [l]. *)
Lemma written_rows (name : string) (f : float) (out : analysis_out) (l : list nat) :
  Forall (fun nr => row_at name f out (fst nr) = Some (snd nr))
    (fst (written name f out l)) /\
  exists rest, l = map fst (fst (written name f out l)) ++ rest.
Proof.
  induction l as [|n l [IH1 [rest IH2]]]; simpl.
  - split; [constructor | now exists []].
  - destruct (row_at name f out n) as [r|] eqn:Er.
    + destruct (written name f out l) as [rs ok]. simpl in *.
      split; [constructor; [exact Er | exact IH1]|].
      exists rest. now rewrite IH2 at 1.
    + split; [constructor | now exists (n :: l)].
Qed.

Lemma written_aligned (name : string) (f : float) (out : analysis_out) :
  aligned out ->
  snd (written name f out (seq 0 (List.length (velocities out)))) = true /\
  map fst (fst (written name f out (seq 0 (List.length (velocities out))))) =
  seq 0 (List.length (velocities out)).
Proof.
  intros Ha. apply written_all. intros n Hn. apply in_seq in Hn.
  destruct (@row_at_aligned name f out n Ha) as (v & fx & fy & cx & cy & fr & x1 & y1 & x2 & y2 & H);
    [lia|].
  decompose [and] H. congruence.
Qed.


(** * The halfspan argument (lines 91-93 and 113) *)

Section Halfspan.

Variable World : Type.
Variable cfg : config.
Variable ext : externals World.

(** With a halfspan in the settings nothing ever binds [halfspan_tmp]: the
    iteration stops at the name lookup of line 113. *)
Lemma iteration_unbound (factor : float) (i : nat) (s : stack) (st : pystate World)
    (r : result unit) (evs : list event) (rows : list row) (h0 : Z) :
  halfspan cfg = Some h0 ->
  halfspan_tmp st = None ->
  iteration cfg ext factor i s st r evs rows ->
  r = Raise (NameError "halfspan_tmp") /\ evs = [EvLoad i (stem s)].
Proof.
  intros Hh Ht Hit.
  assert (Hno : forall pre h, ~ halfspan_choice cfg ext i s st pre h).
  { intros pre h Hc. inversion Hc; congruence. }
  inversion Hit; subst; try congruence.
  - split; reflexivity.
  - exfalso. eapply Hno; eauto.
  - exfalso. eapply Hno; eauto.
Qed.

Lemma given_halfspan_NameError (s : stack) (rest : list stack) (w : World)
    (old : option (list row)) (h0 : Z) (uf : string * float) :
  halfspan cfg = Some h0 ->
  unit_and_factor cfg = Ok uf ->
  fst (run cfg ext (s :: rest) w old) = Raise (NameError "halfspan_tmp") /\
  log (snd (run cfg ext (s :: rest) w old)) =
  [EvOpenWrite; EvWriteHeader (header cfg ext (fst uf)); EvLoad 0 (stem s)].
Proof.
  intros Hh Hu.
  destruct (run cfg ext (s :: rest) w old) as [r st] eqn:Er.
  destruct (run_cases _ _ _ _ _ Er) as [(e & He & _) | (uf' & st0 & blocks & Hu' & Ht & Hsh & Hlog & _)].
  - congruence.
  - rewrite Hu in Hu'. inversion Hu'; subst uf'. simpl.
    inversion Hsh; subst;
      match goal with
      | H : iteration _ _ _ _ _ _ _ _ _ |- _ =>
          destruct (iteration_unbound Hh Ht H) as [Hr Hev]
      end.
    + inversion Hr; subst. split; [reflexivity|]. rewrite Hlog. reflexivity.
    + discriminate.
Qed.


End Halfspan.

(** C1 (code): the settings document a halfspan given by the user
    (line 37), but the loop body binds [halfspan_tmp] only in the [None]
    branch (lines 91-93).  With [halfspan = 5] and one stack the run stops
    at line 113 with [NameError] for [halfspan_tmp]: the file holds the
    header only and [local_velocity_analysis] is never called. *)
Theorem C1_given_halfspan_stops_with_NameError :
  run (with_halfspan (Some 5%Z) script_config) sample_ext [stack_a] tt None =
  (Raise (NameError "halfspan_tmp"),
   {| world := tt; halfspan_tmp := None;
      csv_file := Some [header script_config sample_ext "pixels/frame"];
      log := [EvOpenWrite;
              EvWriteHeader (header script_config sample_ext "pixels/frame");
              EvLoad 0 "a"] |}).
Proof. reflexivity. Qed.

(** * The look-ahead argument (line 120) *)




(** The forward direction is reached: the sample run calls the analysis
    with [look_ahead = 1]. *)
Lemma invoked_forward : invoked_with 1.
Proof.
  exists unit, script_config, sample_ext, [stack_a], tt, None, 0%nat,
    (analysis_args script_config [] 7).
  split; [|reflexivity].
  vm_compute. right. right. right. right. left. reflexivity.
Qed.


(** * The rows of the CSV file (lines 128-146) *)

Lemma getitem_eq (World : Type) (l : list float) (n : nat) (x : float) (st : pystate World) :
  nth_error l n = Some x -> getitem l n st = (Ok x, st).
Proof. intros H. unfold getitem. now rewrite H. Qed.

(** When the loop reaches the end of [l], entry [n] of what it wrote is the
    row of item [n] of [l]. *)
Lemma written_nth (name : string) (f : float) (out : analysis_out) (l : list nat) :
  snd (written name f out l) = true ->
  List.length (fst (written name f out l)) = List.length l /\
  forall n r, nth_error (map snd (fst (written name f out l))) n = Some r ->
    exists m, nth_error l n = Some m /\ row_at name f out m = Some r.
Proof.
  induction l as [|m l IH]; simpl.
  - intros _. split; [reflexivity|]. intros [|n] r H; discriminate.
  - destruct (row_at name f out m) as [r0|] eqn:Er; [|discriminate].
    destruct (written name f out l) as [rs ok]. simpl in *.
    intros Hok. destruct (IH Hok) as [IH1 IH2].
    split; [now rewrite IH1|].
    intros [|n] r H; simpl in H.
    + inversion H; subst. exists m. split; [reflexivity | exact Er].
    + apply IH2 in H. exact H.
Qed.

(** An entry of [written] is the row of its own index. *)
Lemma written_in (name : string) (f : float) (out : analysis_out) (l : list nat)
    (n : nat) (r : row) :
  In (n, r) (fst (written name f out l)) ->
  In n l /\ row_at name f out n = Some r.
Proof.
  destruct (written_rows name f out l) as [HF [rest Hl]].
  intros Hin. split.
  - rewrite Hl. apply in_or_app. left.
    change n with (fst (n, r)). now apply in_map.
  - rewrite Forall_forall in HF. exact (HF _ Hin).
Qed.

(** C6: when the ten sequences an analysis returned have the length of
    [velocities], every index [n] below that length is in range for each
    of the ten accesses of lines 135-144, and the row loop ends without
    [IndexError]. *)
Theorem C6_aligned_accesses_in_bounds (World : Type) (out : analysis_out)
    (i : nat) (name : string) (factor : float) (st : pystate World) :
  aligned out ->
  (forall n, (n < List.length (velocities out))%nat ->
     exists v fx fy cx cy fr x1 y1 x2 y2,
       getitem (velocities out) n st = (Ok v, st) /\
       getitem (forward_wavevector_x out) n st = (Ok fx, st) /\
       getitem (forward_wavevector_y out) n st = (Ok fy, st) /\
       getitem (crests_x out) n st = (Ok cx, st) /\
       getitem (crests_y out) n st = (Ok cy, st) /\
       getitem (framenr out) n st = (Ok fr, st) /\
       getitem (max_x1 out) n st = (Ok x1, st) /\
       getitem (max_y1 out) n st = (Ok y1, st) /\
       getitem (max_x2 out) n st = (Ok x2, st) /\
       getitem (max_y2 out) n st = (Ok y2, st)) /\
  fst (save_rows i name factor out st) = Ok tt.
Proof.
  intros Ha. split.
  - intros n Hn.
    destruct (@row_at_aligned name factor out n Ha Hn)
      as (v & fx & fy & cx & cy & fr & x1 & y1 & x2 & y2 & H).
    decompose [and] H.
    exists v, fx, fy, cx, cy, fr, x1, y1, x2, y2.
    repeat split; now apply getitem_eq.
  - rewrite save_rows_eq. simpl.
    destruct (written_aligned name factor Ha) as [-> _]. reflexivity.
Qed.

Lemma C6_aligned_accesses_in_bounds_witness :
  aligned sample_out /\
  fst (save_rows 0 "a" 1 sample_out (initial tt None)) = Ok tt.
Proof.
  assert (Ha : aligned sample_out) by (repeat split; reflexivity).
  split; [exact Ha|].
  exact (proj2 (C6_aligned_accesses_in_bounds 0 "a" 1 (initial tt None) Ha)).
Defined.

Section Blocks.

Variable World : Type.
Variable cfg : config.
Variable ext : externals World.

Lemma halfspan_choice_events (i : nat) (s : stack) (st : pystate World)
    (pre : list event) (h : Z) :
  halfspan_choice cfg ext i s st pre h ->
  Forall (fun e => exists h', e = EvAutoHalfspan i h') pre.
Proof. intros H. inversion H; subst; repeat constructor. eauto. Qed.

(** All events of an iteration carry the position of its stack. *)
Lemma iteration_tags (factor : float) (i : nat) (s : stack) (st : pystate World)
    (r : result unit) (evs : list event) (rows : list row) :
  iteration cfg ext factor i s st r evs rows ->
  Forall (fun e => stack_of e = Some i) evs.
Proof.
  assert (Hpre : forall pre h, halfspan_choice cfg ext i s st pre h ->
                               Forall (fun e => stack_of e = Some i) pre).
  { intros pre h Hc. apply halfspan_choice_events in Hc.
    eapply Forall_impl; [|exact Hc]. intros e [h' ->]. reflexivity. }
  intros Hit. inversion Hit; subst.
  - repeat constructor.
  - repeat constructor.
  - constructor; [reflexivity|]. apply Forall_app. split; [eauto|].
    repeat constructor.
  - constructor; [reflexivity|]. apply Forall_app. split; [eauto|].
    repeat (constructor; [reflexivity|]).
    apply Forall_forall. intros e He. apply in_map_iff in He.
    destruct He as (nr & <- & _). reflexivity.
Qed.

(** An iteration never creates the file and never writes a header. *)
Lemma iteration_no_creation (factor : float) (i : nat) (s : stack) (st : pystate World)
    (r : result unit) (evs : list event) (rows : list row) :
  iteration cfg ext factor i s st r evs rows ->
  Forall (fun e => stack_of e <> None) evs.
Proof.
  intros H. apply iteration_tags in H. eapply Forall_impl; [|exact H].
  intros e He. congruence.
Qed.

(** A row event of an iteration is the row of its record index in the
    result of this iteration's call. *)
Lemma iteration_rows (factor : float) (i : nat) (s : stack) (st : pystate World)
    (r : result unit) (evs : list event) (rows : list row) (j n : nat)
    (x : row) :
  iteration cfg ext factor i s st r evs rows ->
  In (EvWriteRow j n x) evs ->
  j = i /\
  exists h out w w',
    local_velocity_analysis ext (analysis_args cfg (imread s) h) w = (Ok out, w') /\
    (n < List.length (velocities out))%nat /\
    row_at (stem s) factor out n = Some x.
Proof.
  intros Hit Hin.
  assert (Hpre : forall pre h, halfspan_choice cfg ext i s st pre h ->
                               ~ In (EvWriteRow j n x) pre).
  { intros pre h Hc Hx. apply halfspan_choice_events in Hc.
    rewrite Forall_forall in Hc. destruct (Hc _ Hx) as [h' Hh]. discriminate. }
  inversion Hit; subst; simpl in Hin.
  - destruct Hin as [?|[]]; discriminate.
  - destruct Hin as [?|[]]; discriminate.
  - destruct Hin as [?|Hin]; [discriminate|].
    apply in_app_or in Hin. destruct Hin as [Hin|Hin].
    + exfalso. eapply Hpre; eauto.
    + destruct Hin as [?|[]]; discriminate.
  - destruct Hin as [?|Hin]; [discriminate|].
    apply in_app_or in Hin. destruct Hin as [Hin|Hin].
    + exfalso. eapply Hpre; eauto.
    + destruct Hin as [?|[?|[?|Hin]]]; try discriminate.
      apply in_map_iff in Hin. destruct Hin as ([n' x'] & Heq & Hin).
      unfold row_event in Heq. simpl in Heq. inversion Heq; subst.
      apply written_in in Hin. destruct Hin as [Hseq Hrow].
      apply in_seq in Hseq.
      split; [reflexivity|]. exists h, out, w, w'.
      repeat split; [assumption | lia | assumption].
Qed.

Lemma written_forall2 (i : nat) (name : string) (f : float) (out : analysis_out)
    (l : list nat) :
  snd (written name f out l) = true ->
  Forall2 (fun n e => exists r, row_at name f out n = Some r /\ e = EvWriteRow i n r)
          l (map (row_event i) (fst (written name f out l))).
Proof.
  induction l as [|m l IH]; simpl; [constructor|].
  destruct (row_at name f out m) as [r0|] eqn:Er; [|discriminate].
  destruct (written name f out l) as [rs ok]. simpl in *.
  intros Hok. constructor; [exists r0; split; [exact Er | reflexivity]|].
  exact (IH Hok).
Qed.

(** An iteration that returns normally has written its whole block. *)
Lemma iteration_complete (factor : float) (i : nat) (s : stack) (st : pystate World)
    (evs : list event) (rows : list row) :
  iteration cfg ext factor i s st (Ok tt) evs rows ->
  complete_block cfg ext factor i s evs.
Proof.
  intros Hit. inversion Hit; subst.
  match goal with
  | H : halfspan_choice _ _ _ _ _ ?pre ?h,
    E : local_velocity_analysis _ _ ?w = (Ok ?out, ?w') |- _ =>
      exists pre, h, out, w, w';
      eexists; split; [exact (halfspan_choice_events H)|];
      split; [exact E|]; split; [|reflexivity]
  end.
  apply written_forall2.
  match goal with
  | H : (if ?b then _ else _) = Ok tt |- _ => destruct b; [reflexivity|discriminate]
  end.
Qed.

End Blocks.

Lemma nth_error_seq_inv (k : nat) :
  forall a n m, nth_error (seq a k) n = Some m -> m = (a + n)%nat /\ (n < k)%nat.
Proof.
  induction k as [|k IH]; intros a [|n] m H; simpl in H; try discriminate.
  - inversion H. lia.
  - apply IH in H. lia.
Qed.

Lemma nth_error_seq0 (k n m : nat) :
  nth_error (seq 0 k) n = Some m -> m = n /\ (n < k)%nat.
Proof. intros H. apply nth_error_seq_inv in H. lia. Qed.

(** An iteration that returns normally got a result from the analysis and
    appended the rows of all its record indices to the file. *)
Lemma iteration_ok_rows (World : Type) (cfg : config) (ext : externals World)
    (factor : float) (i : nat) (s : stack) (st : pystate World)
    (evs : list event) (rows : list row) :
  iteration cfg ext factor i s st (Ok tt) evs rows ->
  (forall f, replay evs f = Some (contents f ++ rows)) /\
  exists h out w w',
    local_velocity_analysis ext (analysis_args cfg (imread s) h) w = (Ok out, w') /\
    snd (written (stem s) factor out (seq 0 (List.length (velocities out)))) = true /\
    rows = map snd (fst (written (stem s) factor out
                           (seq 0 (List.length (velocities out))))).
Proof.
  intros Hit. inversion Hit; subst.
  match goal with
  | H : (if ?b then _ else _) = Ok tt |- _ =>
      assert (Hb : b = true) by (destruct b; [reflexivity|discriminate])
  end.
  split.
  - intros f.
    change (EvLoad i (stem s) :: ?l) with ([EvLoad i (stem s)] ++ l).
    rewrite !replay_app.
    match goal with
    | H : halfspan_choice _ _ _ _ _ _ _ |- _ => inversion H; subst
    end; unfold replay at 2 3 4; simpl; apply replay_rows.
  - eauto 10.
Qed.

(** C2 (as the code has it): an iteration of the stack loop that returns
    normally appends exactly one row per index of the [velocities] the
    analysis returned, in index order; row [n] has eleven cells: the name
    of the stack, then velocity magnitude times the unit factor, forward
    wavevector x and y, crest x and y, frame number, and the fitted peak
    position and intensity of frame t and of frame t+1. *)
Theorem C2_one_row_per_record_after_the_filename (World : Type) (cfg : config)
    (ext : externals World) (factor : float) (i : nat) (s : stack)
    (st st' : pystate World) :
  process_stack cfg ext factor i s st = (Ok tt, st') ->
  exists h out w w' rows,
    local_velocity_analysis ext (analysis_args cfg (imread s) h) w = (Ok out, w') /\
    csv_file st' = Some (contents (csv_file st) ++ rows) /\
    List.length rows = List.length (velocities out) /\
    forall n r, nth_error rows n = Some r ->
      exists v fx fy cx cy fr x1 y1 x2 y2,
        nth_error (velocities out) n = Some v /\
        nth_error (forward_wavevector_x out) n = Some fx /\
        nth_error (forward_wavevector_y out) n = Some fy /\
        nth_error (crests_x out) n = Some cx /\
        nth_error (crests_y out) n = Some cy /\
        nth_error (framenr out) n = Some fr /\
        nth_error (max_x1 out) n = Some x1 /\
        nth_error (max_y1 out) n = Some y1 /\
        nth_error (max_x2 out) n = Some x2 /\
        nth_error (max_y2 out) n = Some y2 /\
        r = [ CStr (stem s); CNum (v * factor)%float; CNum fx; CNum fy; CNum cx;
              CNum cy; CNum fr; CNum x1; CNum y1; CNum x2; CNum y2 ].
Proof.
  intros Hp. apply process_stack_iteration in Hp.
  destruct Hp as (evs & rows & Hit & _ & Hcsv).
  destruct (iteration_ok_rows Hit) as [Hre (h & out & w & w' & Hl & Hok & Hrows)].
  exists h, out, w, w', rows.
  destruct (written_nth _ _ _ _ Hok) as [Hlen Hnth].
  split; [exact Hl|]. split; [now rewrite Hcsv, Hre|]. split.
  - rewrite Hrows, length_map, Hlen. apply length_seq.
  - intros n r Hn. rewrite Hrows in Hn.
    destruct (Hnth _ _ Hn) as (m & Hm & Hrow).
    apply nth_error_seq0 in Hm. destruct Hm as [-> _].
    exact (row_at_inv _ _ _ _ Hrow).
Qed.

Lemma C2_one_row_per_record_after_the_filename_witness :
  exists st',
    process_stack script_config sample_ext 1 0 stack_a (initial tt (Some [])) =
    (Ok tt, st') /\
    exists rows,
      csv_file st' = Some ([] ++ rows) /\
      List.length rows = List.length (velocities sample_out).
Proof.
  assert (E : process_stack script_config sample_ext 1 0 stack_a (initial tt (Some [])) =
              (Ok tt, snd (process_stack script_config sample_ext 1 0 stack_a
                             (initial tt (Some [])))))
    by (vm_compute; reflexivity).
  eexists. split; [exact E|].
  destruct (C2_one_row_per_record_after_the_filename _ _ _ _ _ _ E)
    as (h & out & w & w' & rows & Hl & Hcsv & Hlen & _).
  exists rows. split; [exact Hcsv|].
  rewrite Hlen. vm_compute in Hl. inversion Hl. reflexivity.
Defined.

(** The rows the script writes are not the ten-field rows of the
    specification's wording: in the sample run the first data line of the
    file starts with the file name and has eleven cells. *)
Lemma C2_rows_start_with_the_filename :
  nth_error (contents (csv_file (snd (run script_config sample_ext [stack_a] tt None)))) 1
  <> spec_row sample_out 0.
Proof. vm_compute. discriminate. Qed.

(** * The unit factor (lines 56-61) *)


(** The only exception of lines 56-61 is the division by zero, of 60 by
    the frame rate or of [nmperpix] by their quotient. *)
Lemma unit_factor_raises (cfg : config) (e : exn) :
  unit_and_factor cfg = Raise e ->
  e = ZeroDivisionError /\
  exists np fp,
    nmperpix cfg = Some np /\ frpermin cfg = Some fp /\
    ((fp =? 0)%float = true \/ (60 / fp =? 0)%float = true).
Proof.
  unfold unit_and_factor, pydiv.
  destruct (nmperpix cfg) as [np|]; [|discriminate].
  destruct (frpermin cfg) as [fp|]; [|discriminate].
  destruct (fp =? 0)%float eqn:E1.
  - intros H; inversion H. split; [reflexivity|]. exists np, fp. auto.
  - destruct (60 / fp =? 0)%float eqn:E2; [|discriminate].
    intros H; inversion H. split; [reflexivity|]. exists np, fp. auto.
Qed.

(** Every row event of a run is the row of a record of the analysis result
    of its stack, with the factor of lines 56-61. *)
Lemma run_row_events (World : Type) (cfg : config) (ext : externals World)
    (stacks : list stack) (w : World) (old : option (list row))
    (i n : nat) (r : row) :
  In (EvWriteRow i n r) (log (snd (run cfg ext stacks w old))) ->
  exists uf s h out w1 w2,
    unit_and_factor cfg = Ok uf /\
    nth_error stacks i = Some s /\
    local_velocity_analysis ext (analysis_args cfg (imread s) h) w1 = (Ok out, w2) /\
    (n < List.length (velocities out))%nat /\
    row_at (stem s) (snd uf) out n = Some r.
Proof.
  destruct (run cfg ext stacks w old) as [res st] eqn:Er. simpl.
  destruct (run_cases _ _ _ _ _ Er)
    as [(e & _ & _ & ->) | (uf & st0 & blocks & Hu & _ & Hsh & Hlog & _)].
  - simpl. intros [].
  - rewrite Hlog. simpl. intros [H|[H|H]]; try discriminate.
    apply in_concat in H. destruct H as (b & Hb & Hin).
    destruct (loop_shape_block Hsh _ Hb) as (k & s & stk & rk & rows & Hn & Hit).
    destruct (iteration_rows _ _ _ Hit Hin) as [-> (h & out & w1 & w2 & Hl & Hlt & Hrow)].
    exists uf, s, h, out, w1, w2. repeat split; assumption.
Qed.

(** * The order of the events *)

Section Order.

Variable World : Type.
Variable cfg : config.
Variable ext : externals World.

(** The blocks of the loop are the blocks of the stacks in glob order, and
    every block but the one an exception ended is complete. *)
Lemma loop_shape_blocks (factor : float) (i : nat) (stacks : list stack)
    (st : pystate World) (r : result unit) (blocks : list (list event)) :
  loop_shape cfg ext factor i stacks st r blocks ->
  (List.length blocks <= List.length stacks)%nat /\
  (r = Ok tt -> List.length blocks = List.length stacks) /\
  forall k b, nth_error blocks k = Some b ->
    exists s, nth_error stacks k = Some s /\
      Forall (fun e => stack_of e = Some (i + k)%nat) b /\
      ((S k < List.length blocks)%nat \/ r = Ok tt ->
       complete_block cfg ext factor (i + k) s b).
Proof.
  induction 1 as [i st | i s rest st e evs rows Hit
                 | i s rest st st1 evs rows r blocks Hit Hp Hsh IH].
  - simpl. split; [lia|]. split; [reflexivity|]. intros [|k] b H; discriminate.
  - simpl. split; [lia|]. split; [discriminate|].
    intros [|k] b H; simpl in H; [|destruct k; discriminate].
    inversion H; subst. exists s. rewrite Nat.add_0_r.
    split; [reflexivity|]. split; [exact (iteration_tags Hit)|].
    intros [Hk|Hk]; [simpl in Hk; lia | discriminate].
  - destruct IH as (IH1 & IH2 & IH3). simpl.
    split; [lia|]. split; [intros Hr; now rewrite IH2|].
    intros [|k] b H; simpl in H.
    + inversion H; subst. exists s. rewrite Nat.add_0_r.
      split; [reflexivity|]. split; [exact (iteration_tags Hit)|].
      intros _. exact (iteration_complete Hit).
    + destruct (IH3 _ _ H) as (s' & Hs & Htag & Hc).
      exists s'. rewrite Nat.add_succ_r. simpl in Htag, Hc.
      split; [exact Hs|]. split; [exact Htag|].
      intros [Hk|Hk]; apply Hc; [left; lia | right; exact Hk].
Qed.

End Order.

(** The log of every run is the creation of the file followed by one
    block of events per stack, in glob order and without interleaving.
    Every block that is followed by another one, and every block of a run
    that ends normally, is complete. *)
Lemma run_blocks (World : Type) (cfg : config)
    (ext : externals World) (stacks : list stack) (w : World)
    (old : option (list row)) :
  exists (pre : list event) (factor : float) (blocks : list (list event)),
    log (snd (run cfg ext stacks w old)) = pre ++ List.concat blocks /\
    Forall (fun e => stack_of e = None) pre /\
    (List.length blocks <= List.length stacks)%nat /\
    (fst (run cfg ext stacks w old) = Ok tt ->
     List.length blocks = List.length stacks) /\
    forall k b, nth_error blocks k = Some b ->
      exists s, nth_error stacks k = Some s /\
        Forall (fun e => stack_of e = Some k) b /\
        ((S k < List.length blocks)%nat \/ fst (run cfg ext stacks w old) = Ok tt ->
         complete_block cfg ext factor k s b).
Proof.
  destruct (run cfg ext stacks w old) as [r st] eqn:Er. simpl.
  destruct (run_cases _ _ _ _ _ Er)
    as [(e & _ & -> & ->) | (uf & st0 & blocks & _ & _ & Hsh & Hlog & _)].
  - exists [], 1%float, []. simpl. split; [reflexivity|]. split; [constructor|].
    split; [lia|]. split; [discriminate|]. intros [|k] b H; discriminate.
  - exists [EvOpenWrite; EvWriteHeader (header cfg ext (fst uf))], (snd uf), blocks.
    split; [exact Hlog|]. split; [repeat constructor|].
    exact (loop_shape_blocks Hsh).
Qed.

(** * The CSV file (lines 76-79 and 128-146) *)

(** Events of the stack loop only add their data rows to an existing file. *)
Lemma replay_tagged (evs : list event) :
  Forall (fun e => stack_of e <> None) evs ->
  forall c, replay evs (Some c) = Some (c ++ data_rows evs).
Proof.
  unfold replay. induction 1 as [|e evs He HF IH]; intros c; simpl.
  - now rewrite app_nil_r.
  - destruct e; simpl in *; try congruence; rewrite IH; try reflexivity.
    now rewrite <- app_assoc.
Qed.


Lemma data_rows_in (evs : list event) (r : row) :
  In r (data_rows evs) -> exists i n, In (EvWriteRow i n r) evs.
Proof.
  induction evs as [|e evs IH]; simpl; [intros []|].
  destruct e; simpl; intros H;
    try (destruct (IH H) as (i' & n' & Hin); exists i', n'; now right).
  destruct H as [<-|H].
  - eauto.
  - destruct (IH H) as (i' & n' & Hin). exists i', n'. now right.
Qed.

Lemma loop_shape_tagged (World : Type) (cfg : config) (ext : externals World)
    (factor : float) (i : nat) (stacks : list stack) (st : pystate World)
    (r : result unit) (blocks : list (list event)) :
  loop_shape cfg ext factor i stacks st r blocks ->
  Forall (fun e => stack_of e <> None) (List.concat blocks).
Proof.
  induction 1; simpl.
  - constructor.
  - rewrite app_nil_r. eapply iteration_no_creation; eauto.
  - apply Forall_app. split; [eapply iteration_no_creation; eauto | assumption].
Qed.


(** Once the factor is computed, the file is the header and the rows of
    the row events, in the order of the log. *)
Lemma run_file (World : Type) (cfg : config) (ext : externals World)
    (stacks : list stack) (w : World) (old : option (list row))
    (uf : string * float) :
  unit_and_factor cfg = Ok uf ->
  csv_file (snd (run cfg ext stacks w old)) =
  Some (header cfg ext (fst uf) :: data_rows (log (snd (run cfg ext stacks w old)))).
Proof.
  intros Hu. destruct (run cfg ext stacks w old) as [r st] eqn:Er. simpl.
  destruct (run_cases _ _ _ _ _ Er)
    as [(e & He & _) | (uf' & st0 & blocks & Hu' & _ & Hsh & Hlog & Hcsv)];
    [congruence|].
  rewrite Hu in Hu'. inversion Hu'; subst uf'.
  rewrite (replay_tagged (loop_shape_tagged Hsh)) in Hcsv.
  rewrite Hcsv, Hlog. reflexivity.
Qed.




(** * The velocity column *)




(** * Runs in different worlds *)

Section Worlds.

Variable World : Type.
Variable cfg : config.
Variable ext : externals World.
Hypothesis Hpure : pure_externals ext.

Lemma blind_ret {A} (a : A) : world_blind (ret (World := World) a).
Proof. intros st1 st2 H. split; [reflexivity | exact H]. Qed.

Lemma blind_bind {A B} (m : M World A) (k : A -> M World B) :
  world_blind m -> (forall a, world_blind (k a)) -> world_blind (bind m k).
Proof.
  intros Hm Hk st1 st2 H. unfold bind.
  destruct (Hm _ _ H) as [Hr Hs].
  destruct (m st1) as [[a1|e1] s1], (m st2) as [[a2|e2] s2]; simpl in *;
    try discriminate.
  - inversion Hr; subst. exact (Hk a2 _ _ Hs).
  - inversion Hr; subst. split; [reflexivity | exact Hs].
Qed.

Lemma blind_emit (e : event) : world_blind (emit (World := World) e).
Proof.
  intros st1 st2 (H1 & H2 & H3). unfold emit, same_but_world. simpl.
  rewrite H1, H2, H3. repeat split.
Qed.

Lemma blind_open_append (i : nat) : world_blind (open_append (World := World) i).
Proof.
  intros st1 st2 (H1 & H2 & H3). rewrite !open_append_eq.
  unfold same_but_world. simpl. rewrite H1, H2, H3. repeat split.
Qed.

Lemma blind_writerow (e : event) (r : row) :
  world_blind (writerow (World := World) e r).
Proof.
  intros st1 st2 (H1 & H2 & H3). rewrite !writerow_eq.
  unfold same_but_world. simpl. rewrite H1, H2, H3. repeat split.
Qed.

Lemma blind_data_row (name : string) (f : float) (out : analysis_out) (n : nat) :
  world_blind (data_row (World := World) name f out n).
Proof.
  intros st1 st2 H. rewrite !data_row_eq. simpl. split; [reflexivity | exact H].
Qed.

Lemma blind_for_each {A} (body : nat -> A -> M World unit) (l : list A) :
  (forall i x, world_blind (body i x)) ->
  forall i, world_blind (for_each body i l).
Proof.
  intros Hb. induction l as [|x l IH]; intros i; simpl.
  - apply blind_ret.
  - apply blind_bind; [apply Hb | intros _; apply IH].
Qed.

Lemma blind_call {A} (f : World -> result A * World) :
  (forall w w', fst (f w) = fst (f w')) -> world_blind (call f).
Proof.
  intros Hf st1 st2 (H1 & H2 & H3). unfold call.
  specialize (Hf (world st1) (world st2)).
  destruct (f (world st1)) as [r1 w1], (f (world st2)) as [r2 w2]. simpl in *.
  split; [exact Hf|]. unfold same_but_world. simpl. auto.
Qed.

Lemma blind_assign (h : Z) : world_blind (assign_halfspan_tmp (World := World) h).
Proof.
  intros st1 st2 (H1 & H2 & H3). unfold assign_halfspan_tmp, same_but_world.
  simpl. rewrite H2, H3. repeat split.
Qed.

Lemma blind_read : world_blind (read_halfspan_tmp (World := World)).
Proof.
  intros st1 st2 H. pose proof H as (H1 & H2 & H3). unfold read_halfspan_tmp.
  rewrite H1. destruct (halfspan_tmp st2); simpl; split; auto.
Qed.

Lemma blind_save_rows (i : nat) (name : string) (f : float) (out : analysis_out) :
  world_blind (save_rows (World := World) i name f out).
Proof.
  unfold save_rows. apply blind_bind; [apply blind_open_append|]. intros _.
  apply blind_for_each. intros _ n.
  apply blind_bind; [apply blind_data_row | intros r; apply blind_writerow].
Qed.

(** With pure imported functions the loop body does not see the world. *)
Lemma blind_process_stack (factor : float) (i : nat) (s : stack) :
  world_blind (process_stack cfg ext factor i s).
Proof.
  destruct Hpure as [Ha Hl].
  unfold process_stack.
  apply blind_bind; [apply blind_emit|]. intros _.
  apply blind_bind.
  - destruct (halfspan cfg); [apply blind_ret|].
    apply blind_bind; [apply blind_call; intros; apply Ha|]. intros h.
    apply blind_bind; [apply blind_assign | intros _; apply blind_emit].
  - intros _. apply blind_bind; [apply blind_read|]. intros h.
    apply blind_bind; [apply blind_emit|]. intros _.
    apply blind_bind; [apply blind_call; intros; apply Hl|]. intros out.
    apply blind_bind; [apply blind_emit | intros _; apply blind_save_rows].
Qed.

Lemma blind_script (stacks : list stack) : world_blind (script cfg ext stacks).
Proof.
  unfold script.
  apply blind_bind.
  - intros st1 st2 H. unfold lift. simpl. split; [reflexivity | exact H].
  - intros uf. apply blind_bind.
    + unfold open_write. apply blind_bind; [|intros _; apply blind_emit].
      intros st1 st2 (H1 & H2 & H3). unfold set_csv, same_but_world. simpl. auto.
    + intros _. apply blind_bind; [apply blind_writerow|]. intros _.
      apply blind_for_each. intros i s. apply blind_process_stack.
Qed.

End Worlds.

(** Once the factor is computed, the file after a run does not depend on
    what the file held before: line 76 empties it. *)
Lemma run_forgets_old_file (World : Type) (cfg : config) (ext : externals World)
    (stacks : list stack) (w1 w2 : World) (old1 old2 : option (list row))
    (uf : string * float) :
  pure_externals ext ->
  unit_and_factor cfg = Ok uf ->
  csv_file (snd (run cfg ext stacks w1 old1)) =
  csv_file (snd (run cfg ext stacks w2 old2)).
Proof.
  intros Hpure Hu. unfold run. rewrite !script_eq, Hu.
  assert (Hb : world_blind (for_each (process_stack cfg ext (snd uf)) 0 stacks)).
  { apply blind_for_each. intros i s. apply blind_process_stack. exact Hpure. }
  match goal with
  | |- csv_file (snd (_ ?s1)) = csv_file (snd (_ ?s2)) =>
      destruct (Hb s1 s2) as (_ & _ & Hc & _); [|exact Hc]
  end.
  unfold same_but_world, initial. simpl. auto.
Qed.

(** The script itself never looks at the world: when the imported
    functions return what their arguments determine, the result, the
    events and the file of a run are the same in every world, and running
    the script again over its own output gives the same file. *)
Lemma runs_in_any_world (World : Type) (cfg : config)
    (ext : externals World) (stacks : list stack) (w1 w2 : World)
    (old : option (list row)) :
  pure_externals ext ->
  fst (run cfg ext stacks w1 old) = fst (run cfg ext stacks w2 old) /\
  log (snd (run cfg ext stacks w1 old)) = log (snd (run cfg ext stacks w2 old)) /\
  csv_file (snd (run cfg ext stacks w1 old)) =
  csv_file (snd (run cfg ext stacks w2 old)) /\
  csv_file (snd (run cfg ext stacks w2 (csv_file (snd (run cfg ext stacks w1 old))))) =
  csv_file (snd (run cfg ext stacks w1 old)).
Proof.
  intros Hpure.
  assert (Hsim : same_but_world (initial w1 old) (initial w2 old))
    by (unfold same_but_world; simpl; auto).
  destruct (blind_script cfg Hpure stacks Hsim) as (Hr & _ & Hc & Hl).
  split; [exact Hr|]. split; [exact Hl|]. split; [exact Hc|].
  destruct (unit_and_factor cfg) as [uf|e] eqn:Hu.
  - now apply run_forgets_old_file with (uf := uf).
  - unfold run. rewrite !script_eq, Hu. reflexivity.
Qed.

Lemma runs_in_any_world_sample :
  pure_externals counting_ext /\
  csv_file (snd (run script_config counting_ext [stack_a; stack_b] 0%nat None)) =
  csv_file (snd (run script_config counting_ext [stack_a; stack_b] 5%nat None)).
Proof.
  assert (Hp : pure_externals counting_ext) by (split; reflexivity).
  split; [exact Hp|].
  exact (proj1 (proj2 (proj2
    (runs_in_any_world script_config [stack_a; stack_b] 0%nat 5%nat None Hp)))).
Defined.

(** * The flow field of a uniform frame pair *)

Module FlowFieldFacts.
Import FlowField.

Lemma total_map_ext {A} (F G : A -> Q) (l : list A) :
  (forall a, F a == G a)%Q -> (total (map F l) == total (map G l))%Q.
Proof.
  intros H. induction l as [|a l IH]; simpl; [reflexivity|].
  now rewrite H, IH.
Qed.

Lemma total_map_zero {A} (F : A -> Q) (l : list A) :
  (forall a, F a == 0)%Q -> (total (map F l) == 0)%Q.
Proof.
  intros H. induction l as [|a l IH]; simpl; [reflexivity|].
  rewrite H, IH. reflexivity.
Qed.

Lemma clamp_lt (n : nat) (z : Z) : (0 < n)%nat -> (clamp n z < n)%nat.
Proof. unfold clamp. lia. Qed.

(** Inside a uniform frame every read, also one redirected from outside
    the border, gives the one intensity. *)
Lemma pixel_uniform (h w : nat) (c : Q) (f : frame) (y x : Z) :
  uniform_frame h w c f -> (0 < h)%nat -> (0 < w)%nat -> (pixel f y x == c)%Q.
Proof.
  intros [Hlen HF] Hh Hw. unfold pixel, height, width.
  rewrite Forall_forall in HF.
  assert (Hw' : List.length (hd [] f) = w).
  { destruct f as [|l f]; simpl in *; [lia|]. apply HF. now left. }
  rewrite Hw', Hlen.
  assert (Hrow : In (nth (clamp h y) f []) f)
    by (apply nth_In; rewrite Hlen; now apply clamp_lt).
  destruct (HF _ Hrow) as [Hl Hc].
  rewrite Forall_forall in Hc. apply Hc.
  apply nth_In. rewrite Hl. now apply clamp_lt.
Qed.

Section Solver.

Variable weight : Z -> Z -> Z -> Q.
Variable alpha : Q.

Lemma smooth_ext (k : Z) (g g' : Z -> Z -> Q) (y x : Z) :
  (forall y x, g y x == g' y x)%Q ->
  (smooth weight k g y x == smooth weight k g' y x)%Q.
Proof.
  intros H. unfold smooth.
  rewrite (total_map_ext
             (fun d => weight k (fst d) (snd d) * g (y + fst d)%Z (x + snd d)%Z)%Q
             (fun d => weight k (fst d) (snd d) * g' (y + fst d)%Z (x + snd d)%Z)%Q).
  - reflexivity.
  - intros d. now rewrite H.
Qed.

(** Smoothing a constant image gives a constant image. *)
Lemma smooth_constant (k : Z) (g : Z -> Z -> Q) (c : Q) :
  (forall y x, g y x == c)%Q ->
  forall y x y' x', (smooth weight k g y x == smooth weight k g y' x')%Q.
Proof.
  intros H y x y' x'.
  rewrite (smooth_ext k g (fun _ _ => c) y x H).
  rewrite (smooth_ext k g (fun _ _ => c) y' x' H).
  reflexivity.
Qed.

Lemma smooth_zero (k : Z) (g : Z -> Z -> Q) (y x : Z) :
  (forall y x, g y x == 0)%Q -> (smooth weight k g y x == 0)%Q.
Proof.
  intros H. unfold smooth. rewrite total_map_zero.
  - unfold Qdiv. ring.
  - intros d. rewrite H. ring.
Qed.

Section Pair.

Variable k : Z.
Variables f1 f2 : frame.
Variables h w : nat.
Variables c1 c2 : Q.
Hypothesis H1 : uniform_frame h w c1 f1.
Hypothesis H2 : uniform_frame h w c2 f2.
Hypothesis Hh : (0 < h)%nat.
Hypothesis Hw : (0 < w)%nat.

(** The spatial gradient of a uniform pair vanishes. *)
Lemma Ix_zero (y x : Z) : (Ix weight k f1 f2 y x == 0)%Q.
Proof.
  unfold Ix, g1, g2.
  rewrite (smooth_constant k (pixel f1) (c := c1)
             (fun y x => pixel_uniform y x H1 Hh Hw) y (x + 1)%Z y (x - 1)%Z).
  rewrite (smooth_constant k (pixel f2) (c := c2)
             (fun y x => pixel_uniform y x H2 Hh Hw) y (x + 1)%Z y (x - 1)%Z).
  unfold Qdiv. ring.
Qed.

Lemma Iy_zero (y x : Z) : (Iy weight k f1 f2 y x == 0)%Q.
Proof.
  unfold Iy, g1, g2.
  rewrite (smooth_constant k (pixel f1) (c := c1)
             (fun y x => pixel_uniform y x H1 Hh Hw) (y + 1)%Z x (y - 1)%Z x).
  rewrite (smooth_constant k (pixel f2) (c := c2)
             (fun y x => pixel_uniform y x H2 Hh Hw) (y + 1)%Z x (y - 1)%Z x).
  unfold Qdiv. ring.
Qed.

(** No sweep moves the field away from zero. *)
Lemma solve_zero (n : nat) :
  forall y x,
    (fst (solve weight alpha k f1 f2 n) y x == 0)%Q /\
    (snd (solve weight alpha k f1 f2 n) y x == 0)%Q.
Proof.
  induction n as [|n IH]; intros y x; simpl; [split; reflexivity|].
  rewrite Ix_zero, Iy_zero.
  rewrite (smooth_zero k _ y x (fun y x => proj1 (IH y x))).
  rewrite (smooth_zero k _ y x (fun y x => proj2 (IH y x))).
  unfold Qdiv. split; ring.
Qed.

End Pair.

End Solver.

End FlowFieldFacts.

(** C7: for a pair of uniform frames of equal size, whatever the two
    intensities, the kernel, the regularization weight and the number of
    sweeps, [FlowField.compute] returns a field of the size of the frames
    that is the zero vector at every position; it has no error outcome. *)
Theorem C7_uniform_pair_has_zero_flow (weight : Z -> Z -> Z -> Q) (alpha : Q)
    (iterations : nat) (k : Z) (f1 f2 : frame) (h w : nat) (c1 c2 : Q) :
  FlowField.uniform_frame h w c1 f1 ->
  FlowField.uniform_frame h w c2 f2 ->
  FlowField.zero_field (FlowField.compute weight alpha iterations f1 f2 k) /\
  List.length (FlowField.compute weight alpha iterations f1 f2 k) = h /\
  Forall (fun line => List.length line = FlowField.width f1)
         (FlowField.compute weight alpha iterations f1 f2 k).
Proof.
  intros H1 H2. unfold FlowField.compute, FlowField.tabulate, FlowField.zero_field.
  assert (Hh : FlowField.height f1 = h) by (destruct H1; assumption).
  split; [|split].
  - apply Forall_forall. intros line Hline.
    apply in_map_iff in Hline. destruct Hline as (y & <- & Hy).
    apply in_seq in Hy.
    apply Forall_forall. intros d Hd.
    apply in_map_iff in Hd. destruct Hd as (x & <- & Hx).
    apply in_seq in Hx. simpl.
    assert (Hw : FlowField.width f1 = w).
    { destruct H1 as [Hlen HF]. unfold FlowField.width.
      destruct f1 as [|l f]; simpl in *; [lia|].
      rewrite Forall_forall in HF. apply HF. now left. }
    apply (FlowFieldFacts.solve_zero weight alpha k H1 H2); lia.
  - rewrite length_map, length_seq. exact Hh.
  - apply Forall_forall. intros line Hline.
    apply in_map_iff in Hline. destruct Hline as (y & <- & _).
    now rewrite length_map, length_seq.
Qed.

Lemma C7_uniform_pair_has_zero_flow_witness :
  FlowField.uniform_frame 2 3 3 (FlowField.flat_frame 3) /\
  FlowField.uniform_frame 2 3 5 (FlowField.flat_frame 5) /\
  FlowField.zero_field
    (FlowField.compute FlowField.box (1 # 2) 2
       (FlowField.flat_frame 3) (FlowField.flat_frame 5) 3).
Proof.
  assert (Hu : forall c, FlowField.uniform_frame 2 3 c (FlowField.flat_frame c)).
  { intros c. split; [reflexivity|].
    repeat constructor; reflexivity. }
  split; [apply Hu|]. split; [apply Hu|].
  exact (proj1 (C7_uniform_pair_has_zero_flow FlowField.box (1 # 2) 2 3
                  (Hu 3) (Hu 5))).
Defined.

(** * A stack with an invalid configuration *)

(** A loop over two lists is the loop over the first, then over the
    second, unless the first raised. *)
Lemma for_each_app (World : Type) {A} (body : nat -> A -> M World unit)
    (l1 l2 : list A) :
  forall (i : nat) (st : pystate World),
    for_each body i (l1 ++ l2) st =
    match for_each body i l1 st with
    | (Ok _, st') => for_each body (i + List.length l1) l2 st'
    | (Raise e, st') => (Raise e, st')
    end.
Proof.
  induction l1 as [|x l1 IH]; intros i st; simpl.
  - unfold ret. now rewrite Nat.add_0_r.
  - rewrite !bind_eq. destruct (body i x st) as [[[]|e] st1]; [|reflexivity].
    rewrite IH. now rewrite Nat.add_succ_r.
Qed.

(** A run over more stacks goes through the final state of the run over
    the first ones, when that run ends normally. *)
Lemma run_app (World : Type) (cfg : config) (ext : externals World)
    (before after : list stack) (w : World) (old : option (list row)) :
  fst (run cfg ext before w old) = Ok tt ->
  exists uf,
    unit_and_factor cfg = Ok uf /\
    run cfg ext (before ++ after) w old =
    for_each (process_stack cfg ext (snd uf)) (List.length before) after
      (snd (run cfg ext before w old)).
Proof.
  unfold run. rewrite !script_eq.
  destruct (unit_and_factor cfg) as [uf|e]; [|discriminate].
  intros H. exists uf. split; [reflexivity|].
  rewrite for_each_app.
  destruct (for_each (process_stack cfg ext (snd uf)) 0 before _) as [[[]|e] st1];
    [reflexivity | discriminate].
Qed.

Section InvalidConfiguration.

Import LocalVelocityAnalysis.

Variable weight : Z -> Z -> Z -> Q.
Variable alpha : Q.
Variable iterations : nat.
Variable observe :
  call_args -> nat -> frame -> frame -> FlowField.FlowVectorField ->
  list VelocityRecord.
Variable auto_halfspan : ImageStack -> Z -> Z.
Variable str : float -> string.
Variable cfg : config.

Let ext : externals World :=
  as_externals weight alpha iterations observe auto_halfspan str.

(** The loop body on a stack whose configuration is invalid: the error
    comes out of the call, the world and the file are as before. *)
Lemma process_invalid_stack (factor : float) (i : nat) (s : stack)
    (st : pystate World) :
  halfspan cfg = None ->
  valid_configuration (kernel_size_general cfg) (kernel_size_flow cfg)
    (frames_to_analyse cfg) (imread s) = false ->
  process_stack cfg ext factor i s st =
  (Raise ConfigurationError,
   {| world := world st;
      halfspan_tmp := Some (auto_halfspan (imread s) (frames_to_analyse cfg));
      csv_file := csv_file st;
      log := log st ++
             [EvLoad i (stem s);
              EvAutoHalfspan i (auto_halfspan (imread s) (frames_to_analyse cfg));
              EvAnalysis i (analysis_args cfg (imread s)
                              (auto_halfspan (imread s) (frames_to_analyse cfg)))] |}).
Proof.
  intros Hh Hv. unfold process_stack. rewrite Hh.
  cbv [bind emit call assign_halfspan_tmp read_halfspan_tmp ext as_externals
       get_auto_halfspan local_velocity_analysis world halfspan_tmp csv_file log
       analysis analysis_args arg_kernel_size_general arg_kernel_size_flow
       arg_frames_to_analyse arg_stack].
  rewrite Hv. rewrite <- !app_assoc. reflexivity.
Qed.

End InvalidConfiguration.

(** C8 (as the code has it, with the orchestrator of the specification):
    when the stacks before it ran normally, a stack with an invalid
    configuration makes the call raise [ConfigurationError] before any of
    its frame pairs is processed; no figure and no row of that stack is
    written and the rows of the earlier stacks stay in the file.  The loop
    has no handler: the run ends with this error and the stacks after it
    are not processed. *)
Theorem C8_configuration_error_ends_the_run
    (weight : Z -> Z -> Z -> Q) (alpha : Q) (iterations : nat)
    (observe : call_args -> nat -> frame -> frame -> FlowField.FlowVectorField ->
               list LocalVelocityAnalysis.VelocityRecord)
    (auto_halfspan : ImageStack -> Z -> Z) (str : float -> string)
    (cfg : config) (before : list stack) (s : stack) (after : list stack)
    (w : LocalVelocityAnalysis.World) (old : option (list row)) :
  let ext := LocalVelocityAnalysis.as_externals weight alpha iterations observe
               auto_halfspan str in
  halfspan cfg = None ->
  fst (run cfg ext before w old) = Ok tt ->
  LocalVelocityAnalysis.valid_configuration (kernel_size_general cfg)
    (kernel_size_flow cfg) (frames_to_analyse cfg) (imread s) = false ->
  fst (run cfg ext (before ++ s :: after) w old) = Raise ConfigurationError /\
  world (snd (run cfg ext (before ++ s :: after) w old)) =
  world (snd (run cfg ext before w old)) /\
  csv_file (snd (run cfg ext (before ++ s :: after) w old)) =
  csv_file (snd (run cfg ext before w old)) /\
  log (snd (run cfg ext (before ++ s :: after) w old)) =
  log (snd (run cfg ext before w old)) ++
  [EvLoad (List.length before) (stem s);
   EvAutoHalfspan (List.length before) (auto_halfspan (imread s) (frames_to_analyse cfg));
   EvAnalysis (List.length before)
     (analysis_args cfg (imread s) (auto_halfspan (imread s) (frames_to_analyse cfg)))].
Proof.
  intros ext Hh Hok Hv.
  destruct (run_app cfg ext before (s :: after) w old Hok) as (uf & _ & ->).
  simpl. rewrite bind_eq.
  unfold ext. rewrite process_invalid_stack by assumption.
  simpl. repeat split; reflexivity.
Qed.

Lemma C8_configuration_error_ends_the_run_witness :
  halfspan LocalVelocityAnalysis.small_config = None /\
  fst (run LocalVelocityAnalysis.small_config LocalVelocityAnalysis.sample_orchestrator
         [LocalVelocityAnalysis.long_stack] [] None) = Ok tt /\
  LocalVelocityAnalysis.valid_configuration 1 1 2
    (imread LocalVelocityAnalysis.short_stack) = false /\
  fst (run LocalVelocityAnalysis.small_config LocalVelocityAnalysis.sample_orchestrator
         ([LocalVelocityAnalysis.long_stack] ++
          LocalVelocityAnalysis.short_stack :: [LocalVelocityAnalysis.long_stack])
         [] None) = Raise ConfigurationError.
Proof.
  assert (H1 : halfspan LocalVelocityAnalysis.small_config = None) by reflexivity.
  assert (H2 : fst (run LocalVelocityAnalysis.small_config
                      LocalVelocityAnalysis.sample_orchestrator
                      [LocalVelocityAnalysis.long_stack] [] None) = Ok tt)
    by (vm_compute; reflexivity).
  assert (H3 : LocalVelocityAnalysis.valid_configuration 1 1 2
                 (imread LocalVelocityAnalysis.short_stack) = false)
    by (vm_compute; reflexivity).
  split; [exact H1|]. split; [exact H2|]. split; [exact H3|].
  exact (proj1 (C8_configuration_error_ends_the_run FlowField.box (1 # 2) 1
                  LocalVelocityAnalysis.one_record (fun _ _ => 10%Z)
                  (fun _ => "0.25"%string) LocalVelocityAnalysis.small_config
                  [LocalVelocityAnalysis.long_stack] LocalVelocityAnalysis.short_stack
                  [LocalVelocityAnalysis.long_stack] [] None H1 H2 H3)).
Defined.

(** A stack with too few frames in front of a good one: the good one is
    not processed at all, so its row is missing from the file. *)
Lemma C8_later_stacks_are_not_processed :
  ~ others_unaffected LocalVelocityAnalysis.small_config
      LocalVelocityAnalysis.sample_orchestrator
      [] LocalVelocityAnalysis.short_stack [LocalVelocityAnalysis.long_stack]
      [] None.
Proof. unfold others_unaffected. vm_compute. discriminate. Qed.

(** * Further properties of the script *)

(** X1: With both units given and a frame rate of zero, the module makes
    its directory and stops at the division of line 58: when the directory
    cannot be made the exception is that of [mkdir]; otherwise it is
    [ZeroDivisionError], the directory is there afterwards (new and empty
    when it was absent) with the result file it held before, and nothing
    is written. *)
Theorem zero_frame_rate_stops_before_the_file (World : Type) (cfg : config)
    (ext : externals World) (stacks : list stack) (w : World) (d : outdir)
    (np fp : float) :
  nmperpix cfg = Some np ->
  frpermin cfg = Some fp ->
  (fp =? 0)%float = true ->
  program cfg ext stacks w d =
  match make_outpath d with
  | Ok csv => (Raise ZeroDivisionError, Directory csv, [])
  | Raise e => (Raise e, d, [])
  end.
Proof.
  intros Hn Hf H0. unfold program.
  destruct (make_outpath d) as [csv|e]; [|reflexivity].
  unfold run. rewrite script_eq.
  unfold unit_and_factor, pydiv. rewrite Hn, Hf, H0. reflexivity.
Qed.

Lemma zero_frame_rate_stops_before_the_file_witness :
  program (with_units (Some 100%float) (Some 0%float) script_config) sample_ext
    [stack_a] tt (Directory (Some [[CStr "old"]])) =
  (Raise ZeroDivisionError, Directory (Some [[CStr "old"]]), []).
Proof.
  apply (@zero_frame_rate_stops_before_the_file unit
           (with_units (Some 100%float) (Some 0%float) script_config) sample_ext
           [stack_a] tt (Directory (Some [[CStr "old"]])) 100%float 0%float);
    reflexivity.
Defined.





(** ** Sequences of different lengths *)

Lemma row_at_below_shortest (name : string) (f : float) (out : analysis_out) (n : nat) :
  row_at name f out n <> None <-> (n < shortest out)%nat.
Proof.
  unfold shortest. simpl. split.
  - intros H. destruct (row_at name f out n) as [r|] eqn:Er; [|congruence].
    apply row_at_inv in Er.
    destruct Er as (v & fx & fy & cx & cy & fr & x1 & y1 & x2 & y2 & Hr).
    decompose [and] Hr. clear Hr.
    repeat match goal with
           | H : nth_error ?l n = Some _ |- _ =>
               assert (n < List.length l)%nat
                 by (apply nth_error_Some; rewrite H; discriminate);
               clear H
           end.
    lia.
  - intros H.
    destruct (nth_error_in_range (velocities out) (n := n)) as [v Ev]; [lia|].
    destruct (nth_error_in_range (forward_wavevector_x out) (n := n)) as [fx Efx]; [lia|].
    destruct (nth_error_in_range (forward_wavevector_y out) (n := n)) as [fy Efy]; [lia|].
    destruct (nth_error_in_range (crests_x out) (n := n)) as [cx Ecx]; [lia|].
    destruct (nth_error_in_range (crests_y out) (n := n)) as [cy Ecy]; [lia|].
    destruct (nth_error_in_range (framenr out) (n := n)) as [fr Efr]; [lia|].
    destruct (nth_error_in_range (max_x1 out) (n := n)) as [x1 Ex1]; [lia|].
    destruct (nth_error_in_range (max_y1 out) (n := n)) as [y1 Ey1]; [lia|].
    destruct (nth_error_in_range (max_x2 out) (n := n)) as [x2 Ex2]; [lia|].
    destruct (nth_error_in_range (max_y2 out) (n := n)) as [y2 Ey2]; [lia|].
    unfold row_at. rewrite Ev, Efx, Efy, Ecx, Ecy, Efr, Ex1, Ey1, Ex2, Ey2.
    simpl. discriminate.
Qed.

(** Over the indices [a, a+1, ...] the loop writes up to the shortest
    sequence and stops there. *)
Lemma written_upto_shortest (name : string) (f : float) (out : analysis_out) (k : nat) :
  forall a, (a <= shortest out)%nat ->
    snd (written name f out (seq a k)) = (a + k <=? shortest out)%nat /\
    List.length (fst (written name f out (seq a k))) = Nat.min k (shortest out - a).
Proof.
  induction k as [|k IH]; intros a Ha.
  - simpl. split; [symmetry; apply Nat.leb_le; lia | reflexivity].
  - cbn [seq written].
    destruct (row_at name f out a) as [r|] eqn:Er.
    + assert (Hlt : (a < shortest out)%nat)
        by (apply (row_at_below_shortest name f); congruence).
      destruct (IH (S a)) as [IH1 IH2]; [lia|].
      destruct (written name f out (seq (S a) k)) as [rs ok].
      cbn [fst snd List.length] in *. split.
      * rewrite IH1.
        destruct (Nat.leb_spec (S a + k) (shortest out));
          destruct (Nat.leb_spec (a + S k) (shortest out)); try reflexivity; lia.
      * rewrite IH2. lia.
    + assert (Hge : ~ (a < shortest out)%nat).
      { intros Hlt. apply (row_at_below_shortest name f) in Hlt. congruence. }
      cbn [fst snd List.length]. split; [|lia].
      destruct (Nat.leb_spec (a + S k) (shortest out)); [lia | reflexivity].
Qed.

(** X4: When the analysis returns sequences of different lengths, the row loop
    writes the rows below the length of the shortest one and then raises
    [IndexError]; the rows written stay in the file. *)
Theorem ragged_result_leaves_partial_rows (World : Type) (i : nat) (name : string)
    (f : float) (out : analysis_out) (st : pystate World) :
  fst (save_rows i name f out st) =
  (if (List.length (velocities out) <=? shortest out)%nat
   then Ok tt else Raise IndexError) /\
  exists rows,
    csv_file (snd (save_rows i name f out st)) =
    Some (contents (csv_file st) ++ rows) /\
    List.length rows = shortest out /\
    forall n r, nth_error rows n = Some r -> row_at name f out n = Some r.
Proof.
  rewrite save_rows_eq. simpl.
  destruct (@written_upto_shortest name f out (List.length (velocities out)) 0)
    as [Hok Hlen]; [lia|].
  simpl in Hok. split; [now rewrite Hok|].
  eexists. split; [reflexivity|]. split.
  - rewrite length_map, Hlen.
    assert (shortest out <= List.length (velocities out))%nat
      by (unfold shortest; simpl; lia).
    lia.
  - intros n r Hn.
    destruct (written_rows name f out (seq 0 (List.length (velocities out))))
      as [HF [rest Hl]].
    rewrite nth_error_map in Hn.
    destruct (nth_error (fst (written name f out
                (seq 0 (List.length (velocities out))))) n) as [[m r']|] eqn:Hnr;
      [|discriminate].
    simpl in Hn. inversion Hn; subst r'.
    assert (Hm : nth_error (seq 0 (List.length (velocities out))) n = Some m).
    { rewrite Hl. rewrite nth_error_app1.
      - rewrite nth_error_map, Hnr. reflexivity.
      - rewrite length_map. apply nth_error_Some. congruence. }
    apply nth_error_seq0 in Hm. destruct Hm as [-> _].
    rewrite Forall_forall in HF.
    exact (HF _ (nth_error_In _ _ Hnr)).
Qed.

(** ** The file as a table *)

(** X5: Every line of the file has eleven cells, the header as the data rows:
    the columns line up whatever the analysis returns. *)
Theorem every_line_has_eleven_cells (World : Type) (cfg : config)
    (ext : externals World) (stacks : list stack) (w : World)
    (old : option (list row)) (uf : string * float) :
  unit_and_factor cfg = Ok uf ->
  Forall (fun r => List.length r = 11%nat)
         (contents (csv_file (snd (run cfg ext stacks w old)))).
Proof.
  intros Hu. rewrite (@run_file World cfg ext stacks w old uf Hu). simpl.
  constructor; [reflexivity|].
  apply Forall_forall. intros r Hr.
  apply data_rows_in in Hr. destruct Hr as (i & n & Hin).
  apply run_row_events in Hin.
  destruct Hin as (uf' & s & h & out & w1 & w2 & _ & _ & _ & _ & Hrow).
  apply row_at_inv in Hrow.
  destruct Hrow as (v & fx & fy & cx & cy & fr & x1 & y1 & x2 & y2 & Hrow).
  decompose [and] Hrow. subst r. reflexivity.
Qed.

Lemma every_line_has_eleven_cells_witness :
  Forall (fun r => List.length r = 11%nat)
         (contents (csv_file (snd (run script_config ragged_ext [stack_a; stack_b]
                                     tt (Some [[CStr "old"]]))))).
Proof.
  exact (@every_line_has_eleven_cells unit script_config ragged_ext
           [stack_a; stack_b] tt (Some [[CStr "old"]]) _ eq_refl).
Defined.

(** ** Figures *)

(** X6: In a run that ends normally every stack has its figure saved under
    [<stem>_velocity_wheel.png]: two stacks with the same stem, found in
    different subdirectories by the recursive glob, are saved to the same
    file name. *)
Theorem same_stem_same_figure_file (World : Type) (cfg : config)
    (ext : externals World) (stacks : list stack) (w : World)
    (old : option (list row)) (i j : nat) (s1 s2 : stack) :
  fst (run cfg ext stacks w old) = Ok tt ->
  nth_error stacks i = Some s1 ->
  nth_error stacks j = Some s2 ->
  stem s1 = stem s2 ->
  exists f1 f2,
    In (EvSaveFig i (savename (stem s1)) f1) (log (snd (run cfg ext stacks w old))) /\
    In (EvSaveFig j (savename (stem s1)) f2) (log (snd (run cfg ext stacks w old))).
Proof.
  intros Hok H1 H2 Hstem.
  destruct (run cfg ext stacks w old) as [r st] eqn:Er. simpl in *. subst r.
  destruct (run_cases _ _ _ _ _ Er)
    as [(e & _ & He & _) | (uf & st0 & blocks & _ & _ & Hsh & Hlog & _)];
    [discriminate|].
  destruct (loop_shape_blocks Hsh) as (_ & Hlen & Hblocks).
  specialize (Hlen eq_refl).
  assert (Hfig : forall k s, nth_error stacks k = Some s ->
            exists f, In (EvSaveFig k (savename (stem s)) f) (log st)).
  { intros k s Hk.
    destruct (nth_error_in_range blocks (n := k)) as [b Hb].
    { rewrite Hlen. apply nth_error_Some. congruence. }
    destruct (Hblocks _ _ Hb) as (s' & Hs' & _ & Hc).
    rewrite Hk in Hs'. inversion Hs'; subst s'.
    destruct (Hc (or_intror eq_refl))
      as (pre & h & out & w1 & w2 & rowevs & _ & _ & _ & Hbeq).
    exists (fig out). rewrite Hlog. apply in_or_app. right.
    apply in_concat. exists b. split; [exact (nth_error_In _ _ Hb)|].
    rewrite Hbeq. simpl. right. apply in_or_app. right.
    simpl. right. left. reflexivity. }
  destruct (Hfig _ _ H1) as [f1 Hf1]. destruct (Hfig _ _ H2) as [f2 Hf2].
  exists f1, f2. split; [exact Hf1|]. rewrite Hstem. exact Hf2.
Qed.

Lemma same_stem_same_figure_file_witness :
  exists f1 f2,
    In (EvSaveFig 0 "a_velocity_wheel.png" f1)
       (log (snd (run script_config sample_ext [stack_a; stack_c] tt None))) /\
    In (EvSaveFig 1 "a_velocity_wheel.png" f2)
       (log (snd (run script_config sample_ext [stack_a; stack_c] tt None))).
Proof.
  assert (H : fst (run script_config sample_ext [stack_a; stack_c] tt None) = Ok tt)
    by (vm_compute; reflexivity).
  exact (@same_stem_same_figure_file unit script_config sample_ext
           [stack_a; stack_c] tt None 0 1 stack_a stack_c H eq_refl eq_refl eq_refl).
Defined.

(** ** Exceptions of the imported functions *)

(** The loop body when the analysis raises: the exception comes out after
    the call event, before any figure or row. *)
Lemma process_stack_analysis_raises (World : Type) (cfg : config)
    (ext : externals World) (factor : float) (i : nat) (s : stack)
    (st : pystate World) (h : Z) (w1 w2 : World) (e : exn) :
  halfspan cfg = None ->
  get_auto_halfspan ext (imread s) (frames_to_analyse cfg) (world st) = (Ok h, w1) ->
  local_velocity_analysis ext (analysis_args cfg (imread s) h) w1 = (Raise e, w2) ->
  process_stack cfg ext factor i s st =
  (Raise e,
   {| world := w2; halfspan_tmp := Some h; csv_file := csv_file st;
      log := log st ++ [EvLoad i (stem s); EvAutoHalfspan i h;
                        EvAnalysis i (analysis_args cfg (imread s) h)] |}).
Proof.
  intros Hh Ha Hl. unfold process_stack. rewrite Hh.
  cbv [bind emit call assign_halfspan_tmp read_halfspan_tmp].
  cbn [world halfspan_tmp csv_file log].
  rewrite Ha. cbn [world halfspan_tmp csv_file log]. rewrite Hl.
  rewrite <- !app_assoc. reflexivity.
Qed.

(** X7: The stack loop has no handler: when the analysis of a stack raises,
    the run ends with that exception; the file keeps the rows of the stacks
    before it, the failing stack gets no figure and no row, and no stack
    after it is touched. *)
Theorem analysis_exception_ends_the_run (World : Type) (cfg : config)
    (ext : externals World) (before : list stack) (s : stack) (after : list stack)
    (w : World) (old : option (list row)) (h : Z) (w1 w2 : World) (e : exn) :
  halfspan cfg = None ->
  fst (run cfg ext before w old) = Ok tt ->
  get_auto_halfspan ext (imread s) (frames_to_analyse cfg)
    (world (snd (run cfg ext before w old))) = (Ok h, w1) ->
  local_velocity_analysis ext (analysis_args cfg (imread s) h) w1 = (Raise e, w2) ->
  fst (run cfg ext (before ++ s :: after) w old) = Raise e /\
  csv_file (snd (run cfg ext (before ++ s :: after) w old)) =
  csv_file (snd (run cfg ext before w old)) /\
  log (snd (run cfg ext (before ++ s :: after) w old)) =
  log (snd (run cfg ext before w old)) ++
  [EvLoad (List.length before) (stem s);
   EvAutoHalfspan (List.length before) h;
   EvAnalysis (List.length before) (analysis_args cfg (imread s) h)].
Proof.
  intros Hh Hok Ha Hl.
  destruct (run_app cfg ext before (s :: after) w old Hok) as (uf & _ & ->).
  simpl. rewrite bind_eq.
  rewrite (process_stack_analysis_raises cfg ext (snd uf) (List.length before)
             s _ Hh Ha Hl).
  simpl. repeat split; reflexivity.
Qed.

Lemma analysis_exception_ends_the_run_witness :
  fst (run script_config failing_ext ([stack_c] ++ stack_a :: [stack_c]) tt None) =
  Raise (OtherError "empty stack") /\
  csv_file (snd (run script_config failing_ext ([stack_c] ++ stack_a :: [stack_c]) tt None)) =
  csv_file (snd (run script_config failing_ext [stack_c] tt None)).
Proof.
  assert (H : fst (run script_config failing_ext [stack_c] tt None) = Ok tt)
    by (vm_compute; reflexivity).
  destruct (@analysis_exception_ends_the_run unit script_config failing_ext
              [stack_c] stack_a [stack_c] tt None 7%Z tt tt
              (OtherError "empty stack") eq_refl H eq_refl eq_refl)
    as (Hr & Hc & _).
  split; [exact Hr | exact Hc].
Defined.

(** ** When a run succeeds *)





(** ** Stacks that come later *)

Lemma loop_shape_from (World : Type) (cfg : config) (ext : externals World)
    (factor : float) (i : nat) (stacks : list stack) (st : pystate World)
    (r : result unit) (blocks : list (list event)) :
  loop_shape cfg ext factor i stacks st r blocks ->
  Forall (fun e => exists j, stack_of e = Some j /\ (i <= j)%nat)
         (List.concat blocks).
Proof.
  intros Hsh. destruct (loop_shape_blocks Hsh) as (_ & _ & Hb).
  apply Forall_forall. intros e He.
  apply in_concat in He. destruct He as (b & Hin & Heb).
  destruct (In_nth_error _ _ Hin) as [k Hk].
  destruct (Hb _ _ Hk) as (s & _ & Htag & _).
  rewrite Forall_forall in Htag. exists (i + k)%nat.
  split; [exact (Htag _ Heb) | lia].
Qed.

(** After the stacks of [before] ran normally, the stacks of [after] add
    events of their own positions and their own rows, at the end. *)
Lemma run_extends (World : Type) (cfg : config)
    (ext : externals World) (before after : list stack) (w : World)
    (old : option (list row)) :
  fst (run cfg ext before w old) = Ok tt ->
  exists evs,
    log (snd (run cfg ext (before ++ after) w old)) =
    log (snd (run cfg ext before w old)) ++ evs /\
    Forall (fun e => exists j, stack_of e = Some j /\ (List.length before <= j)%nat) evs /\
    contents (csv_file (snd (run cfg ext (before ++ after) w old))) =
    contents (csv_file (snd (run cfg ext before w old))) ++ data_rows evs.
Proof.
  intros Hok.
  destruct (run_app cfg ext before after w old Hok) as (uf & Hu & Heq).
  pose proof (@run_file World cfg ext before w old uf Hu) as Hfile.
  rewrite Heq.
  destruct (for_each (process_stack cfg ext (snd uf)) (List.length before) after
              (snd (run cfg ext before w old))) as [r st'] eqn:El.
  apply loop_blocks in El. destruct El as (blocks & Hsh & Hlog & Hcsv).
  exists (List.concat blocks). simpl.
  split; [exact Hlog|]. split; [exact (loop_shape_from Hsh)|].
  rewrite Hcsv, Hfile. rewrite (replay_tagged (loop_shape_tagged Hsh)).
  reflexivity.
Qed.

(** X9: Processing more stacks only appends: after the stacks of [before] ran
    normally, the stacks of [after] add their own events to the log and
    their own rows to the end of the file, and change nothing written
    before. *)
Theorem later_stacks_only_append (World : Type) (cfg : config)
    (ext : externals World) (before after : list stack) (w : World)
    (old : option (list row)) :
  fst (run cfg ext before w old) = Ok tt ->
  exists evs,
    log (snd (run cfg ext (before ++ after) w old)) =
    log (snd (run cfg ext before w old)) ++ evs /\
    Forall (fun e => exists j, stack_of e = Some j /\ (List.length before <= j)%nat) evs /\
    contents (csv_file (snd (run cfg ext (before ++ after) w old))) =
    contents (csv_file (snd (run cfg ext before w old))) ++ data_rows evs.
Proof. exact (@run_extends World cfg ext before after w old). Qed.

Lemma later_stacks_only_append_witness :
  exists evs,
    log (snd (run script_config sample_ext ([stack_a] ++ [stack_b]) tt None)) =
    log (snd (run script_config sample_ext [stack_a] tt None)) ++ evs /\
    contents (csv_file (snd (run script_config sample_ext ([stack_a] ++ [stack_b]) tt None))) =
    contents (csv_file (snd (run script_config sample_ext [stack_a] tt None))) ++
    data_rows evs.
Proof.
  assert (H : fst (run script_config sample_ext [stack_a] tt None) = Ok tt)
    by (vm_compute; reflexivity).
  destruct (later_stacks_only_append script_config sample_ext [stack_a] [stack_b]
              tt None H) as (evs & Hl & _ & Hc).
  exists evs. split; [exact Hl | exact Hc].
Defined.

(** * One stack after the other *)

Lemma written_complete (name : string) (f : float) (out : analysis_out)
    (l : list nat) :
  snd (written name f out l) = true ->
  fst (written name f out l) =
  combine l (map snd (fst (written name f out l))).
Proof.
  induction l as [|n l IH]; simpl; [reflexivity|].
  destruct (row_at name f out n) as [r|]; [|discriminate].
  destruct (written name f out l) as [rs ok]. simpl in *.
  intros Hok. now rewrite <- IH.
Qed.

(** The loop body with the halfspan left to the heuristic, when it returns
    normally: the world goes through [get_auto_halfspan] and then through
    the analysis, and the state afterwards is the state before with the
    block of the stack in the log and its rows at the end of the file. *)
Lemma process_stack_normal (World : Type) (cfg : config) (ext : externals World)
    (factor : float) (i : nat) (s : stack) (st st' : pystate World) :
  halfspan cfg = None ->
  process_stack cfg ext factor i s st = (Ok tt, st') ->
  exists h w1 out w2 rows,
    get_auto_halfspan ext (imread s) (frames_to_analyse cfg) (world st) = (Ok h, w1) /\
    local_velocity_analysis ext (analysis_args cfg (imread s) h) w1 = (Ok out, w2) /\
    List.length rows = List.length (velocities out) /\
    (forall n r, nth_error rows n = Some r -> row_at (stem s) factor out n = Some r) /\
    st' = {| world := w2; halfspan_tmp := Some h;
             csv_file := Some (contents (csv_file st) ++ rows);
             log := log st ++
                    [EvLoad i (stem s); EvAutoHalfspan i h;
                     EvAnalysis i (analysis_args cfg (imread s) h);
                     EvSaveFig i (savename (stem s)) (fig out);
                     EvOpenAppend i] ++
                    map (fun nr => EvWriteRow i (fst nr) (snd nr))
                        (combine (seq 0 (List.length rows)) rows) |}.
Proof.
  intros Hh. unfold process_stack. rewrite Hh.
  rewrite bind_eq, emit_eq, bind_eq, bind_eq. unfold call at 1.
  cbn [world halfspan_tmp csv_file log].
  destruct (get_auto_halfspan ext (imread s) (frames_to_analyse cfg) (world st))
    as [[h|e] w1] eqn:Ea; [|discriminate].
  rewrite bind_eq. unfold assign_halfspan_tmp at 1. rewrite emit_eq.
  cbn [world halfspan_tmp csv_file log].
  rewrite bind_eq. unfold read_halfspan_tmp.
  cbn [world halfspan_tmp csv_file log].
  rewrite bind_eq, emit_eq, bind_eq. unfold call at 1.
  cbn [world halfspan_tmp csv_file log].
  destruct (local_velocity_analysis ext (analysis_args cfg (imread s) h) w1)
    as [[out|e] w2] eqn:El; [|discriminate].
  rewrite bind_eq, emit_eq, save_rows_eq.
  cbn [world halfspan_tmp csv_file log].
  destruct (snd (written (stem s) factor out (seq 0 (List.length (velocities out)))))
    eqn:Hok; [|discriminate].
  intros H. inversion H; subst st'; clear H.
  destruct (written_nth _ _ _ _ Hok) as [Hlen Hnth].
  rewrite length_seq in Hlen.
  exists h, w1, out, w2,
    (map snd (fst (written (stem s) factor out (seq 0 (List.length (velocities out)))))).
  split; [first [reflexivity | exact Ea]|].
  split; [first [reflexivity | exact El]|].
  split; [now rewrite length_map|]. split.
  - intros n r Hn. destruct (Hnth _ _ Hn) as (m & Hm & Hrow).
    apply nth_error_seq0 in Hm. destruct Hm as [-> _]. exact Hrow.
  - rewrite length_map, Hlen, <- (written_complete _ _ _ _ Hok).
    f_equal. rewrite <- !app_assoc. reflexivity.
Qed.

(** A run over more stacks goes through the run over the first ones, and
    stops where that one stopped when it raised. *)
Lemma run_app_cases (World : Type) (cfg : config) (ext : externals World)
    (before after : list stack) (w : World) (old : option (list row)) :
  (exists uf,
     unit_and_factor cfg = Ok uf /\
     fst (run cfg ext before w old) = Ok tt /\
     run cfg ext (before ++ after) w old =
     for_each (process_stack cfg ext (snd uf)) (List.length before) after
       (snd (run cfg ext before w old))) \/
  (fst (run cfg ext before w old) <> Ok tt /\
   run cfg ext (before ++ after) w old = run cfg ext before w old).
Proof.
  destruct (fst (run cfg ext before w old)) as [[]|e] eqn:Hr.
  - left. destruct (run_app cfg ext before after w old Hr) as (uf & Hu & Heq).
    exists uf. auto.
  - right. split; [discriminate|].
    unfold run in *. rewrite !script_eq in *.
    destruct (unit_and_factor cfg) as [uf|e']; [|reflexivity].
    rewrite for_each_app.
    destruct (for_each (process_stack cfg ext (snd uf)) 0 before _) as [[[]|e''] st1];
      [discriminate | reflexivity].
Qed.

(** The events of a run carry positions below the number of stacks. *)
Lemma run_positions (World : Type) (cfg : config) (ext : externals World)
    (stacks : list stack) (w : World) (old : option (list row)) (e : event)
    (k : nat) :
  In e (log (snd (run cfg ext stacks w old))) ->
  stack_of e = Some k ->
  (k < List.length stacks)%nat.
Proof.
  destruct (run cfg ext stacks w old) as [r st] eqn:Er. simpl.
  destruct (run_cases _ _ _ _ _ Er)
    as [(x & _ & _ & ->) | (uf & st0 & blocks & _ & _ & Hsh & Hlog & _)].
  - intros [].
  - rewrite Hlog. simpl. intros [<-|[<-|Hin]] Hk; try discriminate.
    destruct (loop_shape_blocks Hsh) as (Hlen & _ & Hb).
    apply in_concat in Hin. destruct Hin as (b & Hbin & Heb).
    destruct (In_nth_error _ _ Hbin) as [j Hj].
    destruct (Hb _ _ Hj) as (s & _ & Htag & _).
    rewrite Forall_forall in Htag. specialize (Htag _ Heb). simpl in Htag.
    assert (j < List.length blocks)%nat by (apply nth_error_Some; congruence).
    rewrite Hk in Htag. inversion Htag. lia.
Qed.

Lemma firstn_snoc {A} (l : list A) (k : nat) (x : A) :
  nth_error l k = Some x -> firstn (S k) l = firstn k l ++ [x].
Proof.
  revert k. induction l as [|a l IH]; intros [|k] H; simpl in *; try discriminate.
  - now inversion H.
  - now rewrite (IH _ H).
Qed.

(** C3: (1) the log of every run is the creation of the file followed by
    one block of events per stack, in glob order and without interleaving;
    every block followed by another, and every block of a run that ends
    normally, is complete, and the file is the header followed by the rows
    of the blocks in that order.  (2) Nothing of stack [k] happens unless
    the run over the [k] stacks before it has ended normally, and what
    follows only appends to the log and to the file of that run.  (3) An
    iteration that completes takes the world from the state the stacks
    before it left, through [get_auto_halfspan] and the analysis, saves
    the figure and then appends to the file the rows of the record indices
    0, 1, 2, ... of the returned sequences, row [n] being the row of record
    [n]. *)
Theorem C3_stacks_one_after_the_other (World : Type) (cfg : config)
    (ext : externals World) (stacks : list stack) (w : World)
    (old : option (list row)) :
  (exists (pre : list event) (factor : float) (blocks : list (list event)),
     log (snd (run cfg ext stacks w old)) = pre ++ List.concat blocks /\
     Forall (fun e => stack_of e = None) pre /\
     (List.length blocks <= List.length stacks)%nat /\
     (fst (run cfg ext stacks w old) = Ok tt ->
      List.length blocks = List.length stacks) /\
     (forall k b, nth_error blocks k = Some b ->
        exists s, nth_error stacks k = Some s /\
          Forall (fun e => stack_of e = Some k) b /\
          ((S k < List.length blocks)%nat \/ fst (run cfg ext stacks w old) = Ok tt ->
           complete_block cfg ext factor k s b)) /\
     (forall uf, unit_and_factor cfg = Ok uf ->
        factor = snd uf /\
        csv_file (snd (run cfg ext stacks w old)) =
        Some (header cfg ext (fst uf) :: data_rows (List.concat blocks)))) /\
  (forall k e,
     In e (log (snd (run cfg ext stacks w old))) ->
     stack_of e = Some k ->
     fst (run cfg ext (firstn k stacks) w old) = Ok tt /\
     exists evs,
       log (snd (run cfg ext stacks w old)) =
       log (snd (run cfg ext (firstn k stacks) w old)) ++ evs /\
       Forall (fun e' => exists j, stack_of e' = Some j /\ (k <= j)%nat) evs /\
       contents (csv_file (snd (run cfg ext stacks w old))) =
       contents (csv_file (snd (run cfg ext (firstn k stacks) w old))) ++
       data_rows evs) /\
  (forall k s,
     nth_error stacks k = Some s ->
     fst (run cfg ext (firstn (S k) stacks) w old) = Ok tt ->
     exists uf h w1 out w2 rows,
       unit_and_factor cfg = Ok uf /\
       get_auto_halfspan ext (imread s) (frames_to_analyse cfg)
         (world (snd (run cfg ext (firstn k stacks) w old))) = (Ok h, w1) /\
       local_velocity_analysis ext (analysis_args cfg (imread s) h) w1 = (Ok out, w2) /\
       world (snd (run cfg ext (firstn (S k) stacks) w old)) = w2 /\
       List.length rows = List.length (velocities out) /\
       (forall n r, nth_error rows n = Some r ->
                    row_at (stem s) (snd uf) out n = Some r) /\
       csv_file (snd (run cfg ext (firstn (S k) stacks) w old)) =
       Some (contents (csv_file (snd (run cfg ext (firstn k stacks) w old))) ++ rows) /\
       log (snd (run cfg ext (firstn (S k) stacks) w old)) =
       log (snd (run cfg ext (firstn k stacks) w old)) ++
       [EvLoad k (stem s); EvAutoHalfspan k h;
        EvAnalysis k (analysis_args cfg (imread s) h);
        EvSaveFig k (savename (stem s)) (fig out);
        EvOpenAppend k] ++
       map (fun nr => EvWriteRow k (fst nr) (snd nr))
           (combine (seq 0 (List.length rows)) rows)).
Proof.
  split; [|split].
  - destruct (run cfg ext stacks w old) as [r st] eqn:Er. simpl.
    destruct (run_cases _ _ _ _ _ Er)
      as [(e & He & -> & ->) | (uf & st0 & blocks & Hu & _ & Hsh & Hlog & Hcsv)].
    + exists [], 1%float, []. simpl. split; [reflexivity|]. split; [constructor|].
      split; [lia|]. split; [discriminate|].
      split; [intros [|k] b H; discriminate|].
      intros uf Hu. congruence.
    + exists [EvOpenWrite; EvWriteHeader (header cfg ext (fst uf))], (snd uf), blocks.
      split; [exact Hlog|]. split; [repeat constructor|].
      destruct (loop_shape_blocks Hsh) as (H1 & H2 & H3).
      split; [exact H1|]. split; [exact H2|]. split; [exact H3|].
      intros uf' Hu'. rewrite Hu in Hu'. inversion Hu'; subst uf'.
      split; [reflexivity|].
      rewrite Hcsv. apply (replay_tagged (loop_shape_tagged Hsh)).
  - intros k e Hin Hk.
    pose proof (run_positions _ _ _ _ _ _ Hin Hk) as Hlt.
    rewrite <- (firstn_skipn k stacks) in Hin at 1.
    assert (Hlenk : List.length (firstn k stacks) = k)
      by (rewrite length_firstn; lia).
    destruct (run_app_cases cfg ext (firstn k stacks) (skipn k stacks) w old)
      as [(uf & _ & Hok & _) | (Hno & Heq)].
    + split; [exact Hok|].
      destruct (@run_extends World cfg ext (firstn k stacks) (skipn k stacks) w old Hok)
        as (evs & Hl & Ht & Hc).
      rewrite firstn_skipn in Hl, Hc. rewrite Hlenk in Ht.
      exists evs. auto.
    + exfalso. rewrite Heq in Hin.
      pose proof (run_positions _ _ _ _ _ _ Hin Hk) as Hlt'. lia.
  - intros k s Hs Hok.
    rewrite (firstn_snoc _ _ Hs) in *.
    assert (Hlenk : List.length (firstn k stacks) = k).
    { rewrite length_firstn.
      assert (k < List.length stacks)%nat by (apply nth_error_Some; congruence).
      lia. }
    assert (Hh : halfspan cfg = None).
    { destruct (halfspan cfg) as [h0|] eqn:Hh; [exfalso|reflexivity].
      destruct (unit_and_factor cfg) as [uf|e] eqn:Hu.
      - destruct (firstn k stacks ++ [s]) as [|s0 l] eqn:Hl;
          [destruct (firstn k stacks); discriminate|].
        destruct (@given_halfspan_NameError World cfg ext s0 l w old h0 uf Hh Hu)
          as [Hr _].
        congruence.
      - unfold run in Hok. rewrite script_eq, Hu in Hok. discriminate. }
    destruct (run_app_cases cfg ext (firstn k stacks) [s] w old)
      as [(uf & Hu & Hokk & Heq) | (Hno & Heq)].
    + rewrite Heq in *. rewrite Hlenk in *. simpl in *. rewrite bind_eq in *.
      destruct (process_stack cfg ext (snd uf) k s
                  (snd (run cfg ext (firstn k stacks) w old))) as [[[]|e] st'] eqn:Ep;
        [|discriminate].
      apply process_stack_normal in Ep; [|exact Hh].
      destruct Ep as (h & w1 & out & w2 & rows & Ha & Hl & Hlen & Hrows & ->).
      exists uf, h, w1, out, w2, rows. unfold ret. simpl.
      repeat (split; [assumption || reflexivity|]). reflexivity.
    + exfalso. rewrite Heq in Hok. contradiction.
Qed.
